(** * hetty: the intercepting proxy's modifier pipeline and its request logger

    A shallow embedding of [pkg/reqlog] (the request logger: [RequestModifier],
    [ResponseModifier], [storeResponse], [ParseHTTPResponse]) and of the part
    of [pkg/proxy] that builds and runs the middleware chains
    ([UseRequestModifier], [modifyRequest], [modifyResponse], [errorHandler]).

    Go mutates requests and responses through pointers; here a modifier
    returns the object it leaves behind.  Everything a modifier can touch
    besides its argument (the repository, the logger, the goroutines it
    starts, the clock and the entropy source) lives in a [World] that is
    threaded through a small state monad. *)

From Stdlib Require Import ZArith NArith Strings.Byte.
From stdpp Require Import base gmap strings list.

(** ** Errors *)

(** Go error values: [errors.New], [fmt.Errorf("...: %w", err)] and the
    sentinel [context.Canceled]. *)
Inductive error : Type :=
  | errors_New (msg : string)
  | fmt_Errorf_w (prefix : string) (cause : error)
  | context_Canceled.

(** [errors.Is(err, context.Canceled)]: walks the [%w] chain. *)
Fixpoint errors_Is_Canceled (err : error) : bool :=
  match err with
  | context_Canceled => true
  | fmt_Errorf_w _ cause => errors_Is_Canceled cause
  | errors_New _ => false
  end.

Definition ErrRequestNotFound : error := errors_New "reqlog: request not found".
Definition ErrProjectIDMustBeSet : error := errors_New "reqlog: project ID must be set".

(** ** ULIDs *)

(** A [ulid.ULID] is a [[16]byte]: 6 bytes of millisecond timestamp followed
    by 10 bytes of entropy.  It is kept as the 128-bit number those bytes
    spell in big-endian order, so that [bytes.Compare] is numeric comparison. *)
Definition ULID : Type := N.

Definition ulid_zero : ULID := 0%N.

(** [id.Compare(other)]: -1, 0 or 1. *)
Definition ulid_Compare (a b : ULID) : Z :=
  match N.compare a b with
  | Lt => (-1)%Z
  | Eq => 0%Z
  | Gt => 1%Z
  end.

(** [ulid.MustNew(ms, entropy)] for a timestamp that fits 48 bits (it panics
    beyond, which a wall clock reaches in the year 10889). *)
Definition ulid_MustNew (ms : N) (entropy : N) : ULID :=
  ((ms mod 2 ^ 48) * 2 ^ 80 + entropy mod 2 ^ 80)%N.

(** ** Bodies *)

(** An [io.ReadCloser] as what reading it to the end delivers: the bytes it
    yields and then either EOF ([None]) or a read error. *)
Record Reader : Type := mkReader {
  content : list byte;
  failure : option error;
}.

(** [ioutil.NopCloser(bytes.NewBuffer(b))]: never fails. *)
Definition bytes_NewBuffer (b : list byte) : Reader :=
  {| content := b; failure := None |}.

(** [ioutil.ReadAll(r)]: the bytes read so far and the error, if any. *)
Definition ioutil_ReadAll (r : Reader) : list byte * option error :=
  (content r, failure r).

(** The reader a completed [ReadAll] leaves behind: nothing more to deliver. *)
Definition drained (r : Reader) : Reader :=
  {| content := []; failure := failure r |}.

(** ** Headers *)

(** [http.Header] is [map[string][]string]. *)
Abbreviation Header := (gmap string (list string)).

(** [h.Get(key)] for a key that is already in canonical form: the first value
    stored under the key, or the empty string. *)
Definition Header_Get (h : Header) (key : string) : string :=
  match h !! key with
  | Some (v :: _) => v
  | _ => ""
  end.

(** ** Request contexts *)

(** Context keys are typed: [reqlog.contextKey] and [proxy.contextKey] are
    different types, so their zero constants are different keys. *)
Inductive CtxKey : Type :=
  | reqlog_contextKey (n : Z)
  | proxy_contextKey (n : Z)
  | foreign_key (name : string).

Definition LogBypassedKey : CtxKey := reqlog_contextKey 0.
Definition ReqLogIDKey : CtxKey := proxy_contextKey 0.

#[global] Instance CtxKey_eq_dec : EqDecision CtxKey.
Proof. solve_decision. Defined.

(** The dynamically typed values a context holds. *)
Inductive any : Type :=
  | any_bool (b : bool)
  | any_ULID (id : ULID)
  | any_string (s : string).

(** A [context.Context] as its chain of [WithValue] frames, innermost first. *)
Definition Context : Type := list (CtxKey * any).

Definition context_WithValue (ctx : Context) (k : CtxKey) (v : any) : Context :=
  (k, v) :: ctx.

Fixpoint context_Value (ctx : Context) (k : CtxKey) : option any :=
  match ctx with
  | [] => None
  | (k', v) :: parent => if decide (k' = k) then Some v else context_Value parent k
  end.

(** [v, _ := ctx.Value(k).(bool)]: the zero value unless a bool is stored. *)
Definition assert_bool (v : option any) : bool :=
  match v with
  | Some (any_bool b) => b
  | _ => false
  end.

(** [v, ok := ctx.Value(k).(ulid.ULID)]. *)
Definition assert_ULID (v : option any) : option ULID :=
  match v with
  | Some (any_ULID id) => Some id
  | _ => None
  end.

(** ** Requests and responses *)

Record URL : Type := mkURL {
  Scheme : string;
  URL_Host : string;
  Path : string;
  RawQuery : string;
}.

Record Request : Type := mkRequest {
  Method : string;
  Req_URL : URL;
  Req_Proto : string;
  Req_Header : Header;
  Req_Body : option Reader;
  Host : string;
  Req_ctx : Context;
}.

Record Response : Type := mkResponse {
  Status : string;
  StatusCode : Z;
  Res_Proto : string;
  Res_Header : Header;
  Res_Body : Reader;
  Res_Request : Request;
}.

Definition Request_set_Body (r : Request) (b : option Reader) : Request :=
  {| Method := Method r; Req_URL := Req_URL r; Req_Proto := Req_Proto r;
     Req_Header := Req_Header r; Req_Body := b; Host := Host r;
     Req_ctx := Req_ctx r |}.

Definition Request_set_URL (r : Request) (u : URL) : Request :=
  {| Method := Method r; Req_URL := u; Req_Proto := Req_Proto r;
     Req_Header := Req_Header r; Req_Body := Req_Body r; Host := Host r;
     Req_ctx := Req_ctx r |}.

Definition Request_set_Header (r : Request) (h : Header) : Request :=
  {| Method := Method r; Req_URL := Req_URL r; Req_Proto := Req_Proto r;
     Req_Header := h; Req_Body := Req_Body r; Host := Host r;
     Req_ctx := Req_ctx r |}.

(** [*req = *req.WithContext(ctx)]. *)
Definition Request_WithContext (r : Request) (ctx : Context) : Request :=
  {| Method := Method r; Req_URL := Req_URL r; Req_Proto := Req_Proto r;
     Req_Header := Req_Header r; Req_Body := Req_Body r; Host := Host r;
     Req_ctx := ctx |}.

(** [req.Clone(req.Context())]: a deep copy, which for values is the value. *)
Definition Request_Clone (r : Request) : Request := r.

Definition Response_set_Body (r : Response) (b : Reader) : Response :=
  {| Status := Status r; StatusCode := StatusCode r; Res_Proto := Res_Proto r;
     Res_Header := Res_Header r; Res_Body := b; Res_Request := Res_Request r |}.

(** ** Logs *)

Record ResponseLog : Type := mkResponseLog {
  RL_Proto : string;
  RL_StatusCode : Z;
  RL_Status : string;
  RL_Header : Header;
  RL_Body : list byte;
}.

Record RequestLog : Type := mkRequestLog {
  ID : ULID;
  ProjectID : ULID;
  Log_URL : URL;
  Log_Method : string;
  Log_Proto : string;
  Log_Header : Header;
  Log_Body : list byte;
  Log_Response : option ResponseLog;
}.

(** ** Collaborators *)

(** The [Repository] interface, as far as the logger calls it.  A repository
    is a store of type [R]; an operation returns the store it leaves and its
    [error] result. *)
Class Repository (R : Type) : Type := {
  StoreRequestLog : R → RequestLog → R * option error;
  StoreResponseLog : R → ULID → ResponseLog → R * option error;
}.

(** [compress/gzip]: [gzip.NewReader(r)] either rejects the stream's header or
    gives a reader of the decompressed bytes (which can itself fail later). *)
Class Gzip : Type := {
  gzip_NewReader : Reader → error + Reader;
}.

(** [*scope.Scope], through its one method [Match(req, body)]. *)
Definition Scope : Type := Request → list byte → bool.

(** ** The world around a modifier *)

Inductive LogLine : Type :=
  | Errorw (msg : string) (err : error)
  | Debugw (msg : string).

(** Calls made on the repository, as the logger makes them. *)
Inductive RepoCall : Type :=
  | CallStoreRequestLog (reqLog : RequestLog)
  | CallStoreResponseLog (reqLogID : ULID) (resLog : ResponseLog).

(** The body of the goroutine [ResponseModifier] starts: it holds the
    variables the closure captures. *)
Inductive Task : Type :=
  | TaskStoreResponse (reqLogID : ULID) (clone : Response).

Record World (R : Type) : Type := mkWorld {
  repo : R;                      (* the store behind [svc.repo] *)
  calls : list RepoCall;         (* calls made on it, latest first *)
  logged : list LogLine;         (* lines written to the logger, latest first *)
  spawned : list Task;           (* goroutines started and not yet run, latest first *)
  clock : N;                     (* [time.Now()], in milliseconds *)
  entropy : nat → N;             (* the draws of [ulidEntropy] *)
  drawn : nat;                   (* how many draws were taken *)
}.
Arguments mkWorld {R}.
Arguments repo {R}.
Arguments calls {R}.
Arguments logged {R}.
Arguments spawned {R}.
Arguments clock {R}.
Arguments entropy {R}.
Arguments drawn {R}.

(** The state monad over the world. *)
Definition M (R A : Type) : Type := World R → A * World R.

Definition ret {R A} (a : A) : M R A := λ w, (a, w).

Definition bind {R A B} (m : M R A) (k : A → M R B) : M R B :=
  λ w, let (a, w') := m w in k a w'.

Notation "'let*' x ':=' m 'in' k" := (bind m (λ x, k))
  (at level 10, x pattern, m at level 100, k at level 200).

Section Effects.
Context {R : Type} `{!Repository R}.

Definition log (l : LogLine) : M R unit := λ w,
  (tt, {| repo := repo w; calls := calls w; logged := l :: logged w;
          spawned := spawned w; clock := clock w; entropy := entropy w;
          drawn := drawn w |}).

(** [go func() { ... }()] *)
Definition go (t : Task) : M R unit := λ w,
  (tt, {| repo := repo w; calls := calls w; logged := logged w;
          spawned := t :: spawned w; clock := clock w; entropy := entropy w;
          drawn := drawn w |}).

(** [ulid.MustNew(ulid.Timestamp(time.Now()), ulidEntropy)] *)
Definition new_ULID : M R ULID := λ w,
  (ulid_MustNew (clock w) (entropy w (drawn w)),
   {| repo := repo w; calls := calls w; logged := logged w;
      spawned := spawned w; clock := clock w; entropy := entropy w;
      drawn := S (drawn w) |}).

(** [svc.repo.StoreRequestLog(ctx, reqLog)] *)
Definition svc_StoreRequestLog (reqLog : RequestLog) : M R (option error) := λ w,
  let (r, err) := StoreRequestLog (repo w) reqLog in
  (err, {| repo := r; calls := CallStoreRequestLog reqLog :: calls w;
           logged := logged w; spawned := spawned w; clock := clock w;
           entropy := entropy w; drawn := drawn w |}).

(** [svc.repo.StoreResponseLog(ctx, reqLogID, resLog)] *)
Definition svc_StoreResponseLog (reqLogID : ULID) (resLog : ResponseLog)
  : M R (option error) := λ w,
  let (r, err) := StoreResponseLog (repo w) reqLogID resLog in
  (err, {| repo := r; calls := CallStoreResponseLog reqLogID resLog :: calls w;
           logged := logged w; spawned := spawned w; clock := clock w;
           entropy := entropy w; drawn := drawn w |}).
End Effects.

(** ** The modifier types of [pkg/proxy] *)

Definition RequestModifyFunc (R : Type) : Type := Request → M R Request.
Definition RequestModifyMiddleware (R : Type) : Type :=
  RequestModifyFunc R → RequestModifyFunc R.

(** A response modifier leaves a response behind and returns an [error]. *)
Definition ResponseModifyFunc (R : Type) : Type :=
  Response → M R (Response * option error).
Definition ResponseModifyMiddleware (R : Type) : Type :=
  ResponseModifyFunc R → ResponseModifyFunc R.

(** ** The request logger ([pkg/reqlog]) *)

Record service : Type := mkService {
  bypassOutOfScopeRequests : bool;
  activeProjectID : ULID;
  scope : Scope;
}.

Definition SetActiveProjectID (svc : service) (id : ULID) : service :=
  {| bypassOutOfScopeRequests := bypassOutOfScopeRequests svc;
     activeProjectID := id; scope := scope svc |}.

Definition SetBypassOutOfScopeRequests (svc : service) (bypass : bool) : service :=
  {| bypassOutOfScopeRequests := bypass;
     activeProjectID := activeProjectID svc; scope := scope svc |}.

(** The [ResponseLog{...}] literal that [ParseHTTPResponse] returns, for the
    body it has read. *)
Definition ResponseLog_of (res : Response) (body : list byte) : ResponseLog :=
  {| RL_Proto := Res_Proto res; RL_StatusCode := StatusCode res;
     RL_Status := Status res; RL_Header := Res_Header res;
     RL_Body := body |}.

Section Logger.
Context {R : Type} `{!Repository R} `{!Gzip}.

(** [ParseHTTPResponse]: the log entry of a response, its body decoded when
    the response says it is gzipped. *)
Definition ParseHTTPResponse (res : Response) : error + ResponseLog :=
  let entry := ResponseLog_of res in
  if decide (Header_Get (Res_Header res) "Content-Encoding" = "gzip") then
    match gzip_NewReader (Res_Body res) with
    | inl err => inl (fmt_Errorf_w "reqlog: could not create gzip reader" err)
    | inr gzipReader =>
        (* io.Copy(buf, gzipReader) *)
        match ioutil_ReadAll gzipReader with
        | (_, Some err) =>
            inl (fmt_Errorf_w "reqlog: could not read gzipped response body" err)
        | (buf, None) =>
            (* res.Body = io.NopCloser(buf); io.ReadAll(res.Body) *)
            match ioutil_ReadAll (bytes_NewBuffer buf) with
            | (_, Some err) => inl (fmt_Errorf_w "reqlog: could not read body" err)
            | (body, None) => inr (entry body)
            end
        end
    end
  else
    match ioutil_ReadAll (Res_Body res) with
    | (_, Some err) => inl (fmt_Errorf_w "reqlog: could not read body" err)
    | (body, None) => inr (entry body)
    end.

(** [svc.storeResponse] *)
Definition storeResponse (reqLogID : ULID) (res : Response) : M R (option error) :=
  match ParseHTTPResponse res with
  | inl err => ret (Some err)
  | inr resLog => svc_StoreResponseLog reqLogID resLog
  end.

(** What [RequestModifier] does once the body is captured: [req] is the
    live request, [clone] the copy taken before, [body] the bytes read. *)
Definition log_request (svc : service) (req clone : Request) (body : list byte)
  : M R Request :=
  if decide (ulid_Compare (activeProjectID svc) ulid_zero = 0%Z) then
    (* Bypass logging if no project is active. *)
    let ctx := context_WithValue (Req_ctx req) LogBypassedKey (any_bool true) in
    let req := Request_WithContext req ctx in
    let* _ := log (Debugw "Bypassed logging: no active project.") in
    ret req
  else if bypassOutOfScopeRequests svc && negb (scope svc clone body) then
    (* Bypass logging if the request doesn't match any scope rules. *)
    let ctx := context_WithValue (Req_ctx req) LogBypassedKey (any_bool true) in
    let req := Request_WithContext req ctx in
    let* _ := log (Debugw "Bypassed logging: request doesn't match any scope rules.") in
    ret req
  else
    let* id := new_ULID in
    let reqLog :=
      {| ID := id; ProjectID := activeProjectID svc;
         Log_Method := Method clone; Log_URL := Req_URL clone;
         Log_Proto := Req_Proto clone; Log_Header := Req_Header clone;
         Log_Body := body; Log_Response := None |} in
    let* err := svc_StoreRequestLog reqLog in
    match err with
    | Some e =>
        let* _ := log (Errorw "Failed to store request log." e) in
        ret req
    | None =>
        let* _ := log (Debugw "Stored request log.") in
        let ctx := context_WithValue (Req_ctx req) ReqLogIDKey (any_ULID (ID reqLog)) in
        ret (Request_WithContext req ctx)
    end.

(** [svc.RequestModifier(next)] *)
Definition RequestModifier (svc : service) (next : RequestModifyFunc R)
  : RequestModifyFunc R :=
  λ req,
    let* req := next req in
    let clone := Request_Clone req in
    match Req_Body req with
    | Some rd =>
        match ioutil_ReadAll rd with
        | (_, Some err) =>
            let* _ := log (Errorw "Failed to read request body for logging." err) in
            ret (Request_set_Body req (Some (drained rd)))
        | (body, None) =>
            let req := Request_set_Body req (Some (bytes_NewBuffer body)) in
            let clone := Request_set_Body clone (Some (bytes_NewBuffer body)) in
            log_request svc req clone body
        end
    | None => log_request svc req clone []
    end.

(** [svc.ResponseModifier(next)] *)
Definition ResponseModifier (svc : service) (next : ResponseModifyFunc R)
  : ResponseModifyFunc R :=
  λ res,
    let* (res, err) := next res in
    match err with
    | Some e => ret (res, Some e)
    | None =>
        let ctx := Req_ctx (Res_Request res) in
        if assert_bool (context_Value ctx LogBypassedKey) then ret (res, None)
        else
          match assert_ULID (context_Value ctx ReqLogIDKey) with
          | None => ret (res, Some (errors_New "reqlog: request is missing ID"))
          | Some reqLogID =>
              let clone := res in
              match ioutil_ReadAll (Res_Body res) with
              | (_, Some e) =>
                  ret (Response_set_Body res (drained (Res_Body res)),
                       Some (fmt_Errorf_w "reqlog: could not read response body" e))
              | (body, None) =>
                  let res := Response_set_Body res (bytes_NewBuffer body) in
                  let clone := Response_set_Body clone (bytes_NewBuffer body) in
                  let* _ := go (TaskStoreResponse reqLogID clone) in
                  ret (res, None)
              end
          end
    end.

(** The goroutine started by [ResponseModifier], when it gets to run. *)
Definition run_task (t : Task) : M R unit :=
  match t with
  | TaskStoreResponse reqLogID clone =>
      let* err := storeResponse reqLogID clone in
      match err with
      | Some e => log (Errorw "Failed to store response log." e)
      | None => log (Debugw "Stored response log.")
      end
  end.
End Logger.

(** ** The proxy engine ([pkg/proxy]) *)

Record Proxy (R : Type) : Type := mkProxy {
  reqModifiers : list (RequestModifyMiddleware R);
  resModifiers : list (ResponseModifyMiddleware R);
}.
Arguments mkProxy {R}.
Arguments reqModifiers {R}.
Arguments resModifiers {R}.

(** What the handler has written to the client when it returns. *)
Inductive Written : Type :=
  | WroteResponse (res : Response)
  | WroteStatus (code : Z)
  | WroteNothing.

Definition StatusBadGateway : Z := 502.

(** [for i := n - 1; i >= 0; i-- { fn = mods[i](fn) }], with [n] iterations
    left to do.  The index is always in range; the loop leaves [fn] alone
    where Go would have panicked on a bad index. *)
Fixpoint wrap_down {F : Type} (mods : list (F → F)) (n : nat) (fn : F) : F :=
  match n with
  | 0 => fn
  | S i =>
      wrap_down mods i
        match mods !! i with
        | Some m => m fn
        | None => fn
        end
  end.

Section Engine.
Context {R : Type} `{!Repository R}.

(** Modelled from the spec: the leaf of the request chain, [nopReqModifier],
    is declared in a file of [pkg/proxy] that is not part of the sources;
    the spec has a leaf no-op terminate the chain. *)
Definition nopReqModifier : RequestModifyFunc R := λ req, ret req.

(** Modelled from the spec: the leaf of the response chain, [nopResModifier],
    is declared in a file of [pkg/proxy] that is not part of the sources;
    the spec has a leaf no-op terminate the chain (it returns no error). *)
Definition nopResModifier : ResponseModifyFunc R := λ res, ret (res, None).

(** [NewProxy], as far as the modifier lists go. *)
Definition NewProxy : Proxy R := {| reqModifiers := []; resModifiers := [] |}.

Definition UseRequestModifier (p : Proxy R) (fn : list (RequestModifyMiddleware R))
  : Proxy R :=
  {| reqModifiers := reqModifiers p ++ fn; resModifiers := resModifiers p |}.

Definition UseResponseModifier (p : Proxy R) (fn : list (ResponseModifyMiddleware R))
  : Proxy R :=
  {| reqModifiers := reqModifiers p; resModifiers := resModifiers p ++ fn |}.

(** [p.modifyRequest] *)
Definition modifyRequest (p : Proxy R) (r : Request) : M R Request :=
  (* Fix r.URL for HTTPS requests after CONNECT. *)
  let r :=
    if decide (Scheme (Req_URL r) = "") then
      let u := Req_URL r in
      let u := {| Scheme := Scheme u; URL_Host := Host r; Path := Path u;
                  RawQuery := RawQuery u |} in
      let u := {| Scheme := "https"; URL_Host := URL_Host u; Path := Path u;
                  RawQuery := RawQuery u |} in
      Request_set_URL r u
    else r in
  (* r.Header["X-Forwarded-For"] = nil *)
  let r := Request_set_Header r (<["X-Forwarded-For" := []]> (Req_Header r)) in
  let fn := wrap_down (reqModifiers p) (length (reqModifiers p)) nopReqModifier in
  fn r.

(** [p.modifyResponse] *)
Definition modifyResponse (p : Proxy R) (res : Response)
  : M R (Response * option error) :=
  let fn := wrap_down (resModifiers p) (length (resModifiers p)) nopResModifier in
  fn res.

(** [p.errorHandler] *)
Definition errorHandler (err : error) : M R Written :=
  if errors_Is_Canceled err then ret WroteNothing
  else
    let* _ := log (Errorw "Failed to proxy request." err) in
    ret (WroteStatus StatusBadGateway).

(** [p.handler.ServeHTTP] for a request that is not a CONNECT, as far as the
    proxy's own hooks go: [NewProxy] sets up an [httputil.ReverseProxy] with
    [p.modifyRequest] as its director, [p.modifyResponse] as its response
    hook and [p.errorHandler] as its error handler.  [RoundTrip] stands for
    everything the library does between the two hooks: its own edits of the
    outgoing request's headers, the round trip over the transport and its
    removal of hop-by-hop headers from the response.  What [RoundTrip]
    returns is the response as the library hands it to the response hook,
    not the bytes the upstream put on the wire.  That response refers back
    to the outgoing request; its context is the one the director left, and
    the edits the library makes to that request's headers afterwards are not
    followed here. *)
Definition handler_ServeHTTP (p : Proxy R) (RoundTrip : Request → error + Response)
    (r : Request) : M R Written :=
  let* outreq := modifyRequest p r in
  match RoundTrip outreq with
  | inl err => errorHandler err
  | inr res =>
      let res :=
        {| Status := Status res; StatusCode := StatusCode res;
           Res_Proto := Res_Proto res; Res_Header := Res_Header res;
           Res_Body := Res_Body res; Res_Request := outreq |} in
      let* (res, err) := modifyResponse p res in
      match err with
      | Some e => errorHandler e
      | None => ret (WroteResponse res)
      end
  end.
End Engine.

(** ** The CONNECT tunnel ([pkg/proxy]) *)

#[global] Instance error_eq_dec : EqDecision error.
Proof. solve_decision. Defined.

(** [errors.Is(err, target)] for a sentinel target: [err] or an error on its
    [%w] chain is the target. *)
Fixpoint errors_Is (err target : error) : bool :=
  if decide (err = target) then true
  else
    match err with
    | fmt_Errorf_w _ cause => errors_Is cause target
    | _ => false
    end.

(** Modelled from the spec: [ErrAlreadyAccepted] is declared with the
    once-listener, which is not part of the sources; the spec has the
    listener's second accept fail with this distinguished condition. *)
Definition ErrAlreadyAccepted : error := errors_New "listener already accepted".

Definition StatusOK : Z := 200.
Definition StatusServiceUnavailable : Z := 503.

(** What [handleConnect] meets: whether the response writer can be hijacked,
    and how the hijack, the TLS handshake with the client and the inner
    [http.Serve] end ([None] for a nil error). *)
Record Tunnel : Type := mkTunnel {
  is_Hijacker : bool;
  Hijack_err : option error;
  Handshake_err : option error;
  Serve_err : option error;
}.

(** What [handleConnect] does, in the order it does it. *)
Inductive ConnEvent : Type :=
  | EvErrorw (msg : string) (err : option error)   (* p.logger.Errorw *)
  | EvWriteHeader (code : Z)                       (* w.WriteHeader *)
  | EvWriteError (code : Z)                        (* writeError(w, code) *)
  | EvHijack                                       (* hj.Hijack() *)
  | EvHandshake                                    (* tlsConn.Handshake() *)
  | EvCloseTLS                                     (* tlsConn.Close() *)
  | EvServe                                        (* http.Serve(l, p): the proxy
                                                      serves the tunnelled
                                                      requests *)
  | EvAwaitClosed                                  (* <-clientConnNotify.closed *)
  | EvCloseClient.                                 (* clientConn.Close() *)

#[global] Instance ConnEvent_eq_dec : EqDecision ConnEvent.
Proof. solve_decision. Defined.

(** [p.clientTLSConn]: the events and the error it returns. *)
Definition clientTLSConn (t : Tunnel) : list ConnEvent * option error :=
  match Handshake_err t with
  | Some err => ([EvHandshake; EvCloseTLS], Some (fmt_Errorf_w "handshake error" err))
  | None => ([EvHandshake], None)
  end.

(** [p.handleConnect].  The deferred [clientConn.Close()] runs when the
    function returns after the hijack succeeded, which it does when the
    handshake fails.  After a completed handshake the function does not
    return: the channel it waits on is made here and kept in the local
    [clientConnNotify], and the listener is given the bare connection
    [clientConnNotify.Conn], so nothing can signal it; the event list then
    ends with the wait and the deferred close never runs. *)
Definition handleConnect (t : Tunnel) : list ConnEvent :=
  if negb (is_Hijacker t) then
    [EvErrorw "ResponseWriter is not a http.Hijacker." None;
     EvWriteError StatusServiceUnavailable]
  else
    [EvWriteHeader StatusOK; EvHijack] ++
    match Hijack_err t with
    | Some err =>
        [EvErrorw "Hijacking client connection failed." (Some err);
         EvWriteError StatusServiceUnavailable]
    | None =>
        let (events, err) := clientTLSConn t in
        events ++
        match err with
        | Some err =>
            [EvErrorw "Securing client connection failed." (Some err);
             EvCloseClient]
        | None =>
            [EvServe] ++
            match Serve_err t with
            | Some err =>
                if negb (errors_Is err ErrAlreadyAccepted)
                then [EvErrorw "Serving HTTP request failed." (Some err)]
                else []
            | None => []
            end ++
            [EvAwaitClosed]
        end
    end.

(** ** Collaborators to run the model on *)

(** Modelled from the spec: the repository implementations are not part of
    the sources.  An in-memory repository that follows the spec's repository
    interface, its request logs in insertion order. *)
Definition MemRepo : Type := list RequestLog.

Definition attach_response (reqLogID : ULID) (resLog : ResponseLog) (l : RequestLog)
  : RequestLog :=
  if decide (ID l = reqLogID) then
    {| ID := ID l; ProjectID := ProjectID l; Log_URL := Log_URL l;
       Log_Method := Log_Method l; Log_Proto := Log_Proto l;
       Log_Header := Log_Header l; Log_Body := Log_Body l;
       Log_Response := Some resLog |}
  else l.

(** Modelled from the spec: [StoreRequestLog] persists the log and rejects a
    zero [ProjectID] with [ErrProjectIDMustBeSet]. *)
Definition MemRepo_StoreRequestLog (r : MemRepo) (reqLog : RequestLog)
  : MemRepo * option error :=
  if decide (ProjectID reqLog = ulid_zero) then (r, Some ErrProjectIDMustBeSet)
  else (r ++ [reqLog], None).

(** Modelled from the spec: [StoreResponseLog] persists the response against
    an existing request log; [reqLogID] must refer to one. *)
Definition MemRepo_StoreResponseLog (r : MemRepo) (reqLogID : ULID)
    (resLog : ResponseLog) : MemRepo * option error :=
  if existsb (λ l, bool_decide (ID l = reqLogID)) r
  then (attach_response reqLogID resLog <$> r, None)
  else (r, Some ErrRequestNotFound).

#[global] Instance MemRepo_Repository : Repository MemRepo := {|
  StoreRequestLog := MemRepo_StoreRequestLog;
  StoreResponseLog := MemRepo_StoreResponseLog;
|}.

(** A repository whose writes fail (a closed or full database); it counts
    the writes it refused. *)
Definition BrokenRepo : Type := nat.

Definition ErrBrokenRepo : error := errors_New "repository: write failed".

#[global] Instance BrokenRepo_Repository : Repository BrokenRepo := {|
  StoreRequestLog r _ := (S r, Some ErrBrokenRepo);
  StoreResponseLog r _ _ := (S r, Some ErrBrokenRepo);
|}.

(** A gzip decoder for the part of the format that needs no Huffman tables:
    one member (RFC 1952) without optional header fields whose DEFLATE stream
    (RFC 1951) is made of stored blocks, with the CRC-32 and length of the
    trailer checked.  Streams outside this part are rejected here; the
    theorems below hold for every decoder and use this one only to run
    examples on streams it decodes as any gzip decoder does. *)
Module StoredGzip.

Definition ErrHeader : error := errors_New "gzip: invalid header".
Definition ErrChecksum : error := errors_New "gzip: invalid checksum".
Definition ErrUnexpectedEOF : error := errors_New "unexpected EOF".
Definition ErrCorrupt : error := errors_New "flate: corrupt input".
Definition ErrUnsupported : error := errors_New "gzip: outside the stored-block subset".

Definition crc32_shift (c : N) : N :=
  if N.testbit c 0 then N.lxor (N.shiftr c 1) 0xEDB88320 else N.shiftr c 1.

Definition crc32_update (crc : N) (b : byte) : N :=
  N.iter 8 crc32_shift (N.lxor crc (Byte.to_N b)).

Definition crc32 (bs : list byte) : N :=
  N.lxor (fold_left crc32_update bs 0xFFFFFFFF%N) 0xFFFFFFFF.

(** A little-endian number. *)
Definition le (bs : list byte) : N :=
  foldr (λ b acc, Byte.to_N b + 256 * acc)%N 0%N bs.

(** The stored blocks of a DEFLATE stream: the bytes they hold and what
    follows the final block, or [None] when the input is cut short, and
    [Some None] when a block is not a well-formed stored block. *)
Fixpoint inflate_stored (fuel : nat) (bs out : list byte)
  : option (option (list byte * list byte)) :=
  match fuel with
  | 0 => None
  | S fuel =>
      match bs with
      | hd :: l0 :: l1 :: n0 :: n1 :: rest =>
          let h := Byte.to_N hd in
          let len := le [l0; l1] in
          if negb (N.land (N.shiftr h 1) 3 =? 0)%N then Some None
          else if negb (len + le [n0; n1] =? 0xFFFF)%N then Some None
          else if (N.of_nat (length rest) <? len)%N then None
          else
            let out := out ++ take (N.to_nat len) rest in
            let rest := drop (N.to_nat len) rest in
            if N.testbit h 0 then Some (Some (out, rest))
            else inflate_stored fuel rest out
      | _ => None
      end
  end.

Definition eof_error (r : Reader) : error :=
  match failure r with
  | Some e => e
  | None => ErrUnexpectedEOF
  end.

Definition NewReader (r : Reader) : error + Reader :=
  match content r with
  | id1 :: id2 :: cm :: flg :: _ :: _ :: _ :: _ :: _ :: _ :: deflate =>
      if negb (bool_decide (Byte.to_N id1 = 0x1f%N ∧ Byte.to_N id2 = 0x8b%N
                            ∧ Byte.to_N cm = 8%N)) then inl ErrHeader
      else if negb (Byte.to_N flg =? 0)%N then inl ErrUnsupported
      else
        inr match inflate_stored (S (length deflate)) deflate [] with
            | None => {| content := []; failure := Some (eof_error r) |}
            | Some None => {| content := []; failure := Some ErrCorrupt |}
            | Some (Some (out, trailer)) =>
                match trailer with
                | [c0; c1; c2; c3; s0; s1; s2; s3] =>
                    if ((le [c0; c1; c2; c3] =? crc32 out)
                        && (le [s0; s1; s2; s3] =? N.of_nat (length out) mod 2 ^ 32))%N
                    then {| content := out; failure := failure r |}
                    else {| content := out; failure := Some ErrChecksum |}
                | _ => {| content := out; failure := Some ErrUnsupported |}
                end
            end
  | _ => inl (eof_error r)
  end.

#[global] Instance gzip : Gzip := {| gzip_NewReader := NewReader |}.

(** gzip("world"), as one stored block. *)
Definition gz_world : list byte :=
  [x1f; x8b; x08; x00; x00; x00; x00; x00; x00; xff;
   x01; x05; x00; xfa; xff; x77; x6f; x72; x6c; x64;
   x43; x11; x77; x3a; x05; x00; x00; x00].

End StoredGzip.

(** ** Middlewares that make the order of execution visible *)

(** A middleware that does [before], calls [next], and does [after] once
    [next] has returned. *)
Definition around_req {R : Type} (hook : (World R → World R) * (World R → World R))
  : RequestModifyMiddleware R :=
  λ next req w, let (req', w') := next req (hook.1 w) in (req', hook.2 w').

Definition around_res {R : Type} (hook : (World R → World R) * (World R → World R))
  : ResponseModifyMiddleware R :=
  λ next res w, let (out, w') := next res (hook.1 w) in (out, hook.2 w').

(** Doing a list of actions one after the other. *)
Definition in_sequence {R : Type} (acts : list (World R → World R)) (w : World R)
  : World R :=
  foldl (λ w act, act w) w acts.

(** The chain [m1 (m2 (... (mn leaf)))]. *)
Definition chain {F : Type} (mods : list (F → F)) (leaf : F) : F :=
  foldr (λ m fn, m fn) leaf mods.

(** ** What the request logger captures *)

(** The copy of the request and the body bytes that [RequestModifier] works
    with once it has read the body: defined when the request has no body or
    its body is read to the end without error. *)
Definition captured (req : Request) : option (Request * list byte) :=
  match Req_Body req with
  | None => Some (req, [])
  | Some rd =>
      match failure rd with
      | None => Some (Request_set_Body req (Some (bytes_NewBuffer (content rd))),
                      content rd)
      | Some _ => None
      end
  end.

(** The request log that [RequestModifier] builds for the request [req] with
    captured body [body], in the world [w] it runs in: the [RequestLog{...}]
    literal with the id drawn from the clock and the entropy source. *)
Definition built_log {R : Type} (svc : service) (req : Request) (body : list byte)
    (w : World R) : RequestLog :=
  {| ID := ulid_MustNew (clock w) (entropy w (drawn w));
     ProjectID := activeProjectID svc;
     Log_URL := Req_URL req; Log_Method := Method req;
     Log_Proto := Req_Proto req; Log_Header := Req_Header req;
     Log_Body := body; Log_Response := None |}.

(** A request whose body is absent or can be read to the end. *)
Definition readable (req : Request) : Prop :=
  match Req_Body req with
  | Some rd => failure rd = None
  | None => True
  end.

(** ** Exchanges to run the model on *)

Module Fixtures.

Definition world0 {R : Type} (r : R) : World R :=
  {| repo := r; calls := []; logged := []; spawned := [];
     clock := 1700000000000; entropy := λ n, (N.of_nat n + 7)%N; drawn := 0 |}.

(** A world with an empty in-memory repository, and one whose repository
    refuses writes. *)
Definition mem0 : World MemRepo := world0 [].
Definition broken0 : World BrokenRepo := world0 0.

Definition project1 : ULID := 1%N.

(** No active project. *)
Definition svc_idle : service :=
  {| bypassOutOfScopeRequests := false; activeProjectID := ulid_zero;
     scope := λ _ _, true |}.

(** An active project, everything logged. *)
Definition svc_active : service :=
  {| bypassOutOfScopeRequests := false; activeProjectID := project1;
     scope := λ _ _, true |}.

(** An active project whose scope is the host [in-scope.test]; requests out
    of scope are bypassed. *)
Definition svc_scoped : service :=
  {| bypassOutOfScopeRequests := true; activeProjectID := project1;
     scope := λ req _, bool_decide (URL_Host (Req_URL req) = "in-scope.test") |}.

(** [GET http://upstream.test/a] *)
Definition req_get : Request :=
  {| Method := "GET";
     Req_URL := {| Scheme := "http"; URL_Host := "upstream.test"; Path := "/a";
                   RawQuery := "" |};
     Req_Proto := "HTTP/1.1";
     Req_Header := {[ "Accept" := ["*/*"] ]};
     Req_Body := None;
     Host := "upstream.test";
     Req_ctx := [] |}.

(** [GET /x] with [Host: secure.test], as it arrives inside a CONNECT tunnel
    to [secure.test:443]. *)
Definition req_tunnelled : Request :=
  {| Method := "GET";
     Req_URL := {| Scheme := ""; URL_Host := ""; Path := "/x"; RawQuery := "" |};
     Req_Proto := "HTTP/1.1";
     Req_Header := ∅;
     Req_Body := None;
     Host := "secure.test";
     Req_ctx := [] |}.

(** A [POST] whose body breaks off after three bytes. *)
Definition req_broken : Request :=
  {| Method := "POST";
     Req_URL := {| Scheme := "http"; URL_Host := "upstream.test"; Path := "/a";
                   RawQuery := "" |};
     Req_Proto := "HTTP/1.1";
     Req_Header := {[ "Content-Length" := ["5"] ]};
     Req_Body := Some {| content := String.list_byte_of_string "hel";
                         failure := Some (errors_New "unexpected EOF") |};
     Host := "upstream.test";
     Req_ctx := [] |}.

(** [200 OK] with body [hello], in answer to [req]. *)
Definition res_hello (req : Request) : Response :=
  {| Status := "200 OK"; StatusCode := 200; Res_Proto := "HTTP/1.1";
     Res_Header := {[ "Content-Type" := ["text/plain"] ]};
     Res_Body := bytes_NewBuffer (String.list_byte_of_string "hello");
     Res_Request := req |}.

(** [200 OK] with [Content-Encoding: gzip] and body gzip([world]), in answer
    to [req]. *)
Definition res_gz (req : Request) : Response :=
  {| Status := "200 OK"; StatusCode := 200; Res_Proto := "HTTP/1.1";
     Res_Header := {[ "Content-Encoding" := ["gzip"] ]};
     Res_Body := bytes_NewBuffer StoredGzip.gz_world;
     Res_Request := req |}.

(** An upstream that answers every request with [hello]. *)
Definition upstream_hello (req : Request) : error + Response :=
  inr (res_hello req).

(** An upstream that answers every request with gzip([world]). *)
Definition upstream_gz (req : Request) : error + Response :=
  inr (res_gz req).

(** A request whose log was stored under [id]. *)
Definition logged_as (id : ULID) (req : Request) : Request :=
  Request_WithContext req (context_WithValue (Req_ctx req) ReqLogIDKey (any_ULID id)).

(** A request that was bypassed. *)
Definition bypassed (req : Request) : Request :=
  Request_WithContext req
    (context_WithValue (Req_ctx req) LogBypassedKey (any_bool true)).

(** A response middleware that fails. *)
Definition failing_res {R : Type} : ResponseModifyFunc R :=
  λ res, ret (res, Some (errors_New "inner: refused")).

(** [POST http://upstream.test/a] with body [hello], sent with an
    [X-Forwarded-For] header and a value of another package on its context. *)
Definition req_post : Request :=
  {| Method := "POST";
     Req_URL := {| Scheme := "http"; URL_Host := "upstream.test"; Path := "/a";
                   RawQuery := "" |};
     Req_Proto := "HTTP/1.1";
     Req_Header := {[ "X-Forwarded-For" := ["10.0.0.7"]; "Accept" := ["*/*"] ]};
     Req_Body := Some (bytes_NewBuffer (String.list_byte_of_string "hello"));
     Host := "upstream.test";
     Req_ctx := [(foreign_key "trace", any_string "abc")] |}.

(** [200 OK] whose body breaks off because the request was cancelled. *)
Definition res_cancelled (req : Request) : Response :=
  {| Status := "200 OK"; StatusCode := 200; Res_Proto := "HTTP/1.1";
     Res_Header := ∅;
     Res_Body := {| content := String.list_byte_of_string "he";
                    failure := Some context_Canceled |};
     Res_Request := req |}.

(** [200 OK] marked gzip whose body is not a gzip stream. *)
Definition res_not_gz (req : Request) : Response :=
  {| Status := "200 OK"; StatusCode := 200; Res_Proto := "HTTP/1.1";
     Res_Header := {[ "Content-Encoding" := ["gzip"] ]};
     Res_Body := bytes_NewBuffer (String.list_byte_of_string "hello, world");
     Res_Request := req |}.

(** A request whose context holds values of the wrong type under the
    logger's keys. *)
Definition mistyped (req : Request) : Request :=
  Request_WithContext req
    [(LogBypassedKey, any_string "true"); (ReqLogIDKey, any_string "01F0")].

(** A tunnel that comes up and whose serve loop ends with the once-listener
    refusing a second accept. *)
Definition tunnel_up : Tunnel :=
  {| is_Hijacker := true; Hijack_err := None; Handshake_err := None;
     Serve_err := Some ErrAlreadyAccepted |}.


(** A hijack that fails. *)
Definition tunnel_hijack_fails : Tunnel :=
  {| is_Hijacker := true; Hijack_err := Some (errors_New "http: connection has been hijacked");
     Handshake_err := None; Serve_err := None |}.

(** The proxy with the logger attached, as its only middleware. *)
Definition proxy_with_logger {R : Type} `{!Repository R} `{!Gzip} (svc : service)
  : Proxy R :=
  UseResponseModifier
    (UseRequestModifier NewProxy [RequestModifier svc])
    [ResponseModifier svc].

End Fixtures.

(** * Properties *)

(** The stored-block decoder on gzip([world]). *)
Example StoredGzip_world :
  StoredGzip.NewReader (bytes_NewBuffer StoredGzip.gz_world)
  = inr (bytes_NewBuffer (String.list_byte_of_string "world")).
Proof. vm_compute. reflexivity. Qed.

Example StoredGzip_crc32_world :
  StoredGzip.crc32 (String.list_byte_of_string "world") = 0x3a771143%N.
Proof. vm_compute. reflexivity. Qed.

(** A stream that does not start with the gzip magic is rejected. *)
Example StoredGzip_not_gzip :
  StoredGzip.NewReader (bytes_NewBuffer (String.list_byte_of_string "hello, world"))
  = inl StoredGzip.ErrHeader.
Proof. vm_compute. reflexivity. Qed.

Section EngineProperties.
Context {R : Type} `{!Repository R}.

Lemma wrap_down_prefix {F : Type} (pre suf : list (F → F)) (fn : F) :
  wrap_down (pre ++ suf) (length pre) fn = chain pre fn.
Proof.
  revert suf fn. induction pre as [|m pre IH] using rev_ind; intros suf fn.
  - reflexivity.
  - rewrite length_app, Nat.add_1_r. cbn [wrap_down].
    rewrite <- (assoc_L (++)).
    rewrite (lookup_app_r pre) by lia.
    rewrite Nat.sub_diag. cbn [lookup list_lookup app].
    rewrite IH. unfold chain. rewrite foldr_app. reflexivity.
Qed.

Lemma wrap_down_chain {F : Type} (mods : list (F → F)) (fn : F) :
  wrap_down mods (length mods) fn = chain mods fn.
Proof.
  rewrite <- (app_nil_r mods) at 1. apply wrap_down_prefix.
Qed.

Lemma chain_around_req (hooks : list ((World R → World R) * (World R → World R)))
    (req : Request) (w : World R) :
  chain (around_req <$> hooks) nopReqModifier req w
  = (req, in_sequence ((fst <$> hooks) ++ reverse (snd <$> hooks)) w).
Proof.
  revert w. induction hooks as [|[b a] hooks IH]; intros w.
  - reflexivity.
  - cbn [fmap list_fmap chain foldr]. unfold around_req at 1. cbn [fst snd].
    fold (chain (around_req <$> hooks) (@nopReqModifier R)).
    rewrite IH. unfold in_sequence. rewrite reverse_cons, app_assoc.
    rewrite (foldl_app _ _ [a]). reflexivity.
Qed.

Lemma chain_around_res (hooks : list ((World R → World R) * (World R → World R)))
    (res : Response) (w : World R) :
  chain (around_res <$> hooks) nopResModifier res w
  = ((res, None), in_sequence ((fst <$> hooks) ++ reverse (snd <$> hooks)) w).
Proof.
  revert w. induction hooks as [|[b a] hooks IH]; intros w.
  - reflexivity.
  - cbn [fmap list_fmap chain foldr]. unfold around_res at 1. cbn [fst snd].
    fold (chain (around_res <$> hooks) (@nopResModifier R)).
    rewrite IH. unfold in_sequence. rewrite reverse_cons, app_assoc.
    rewrite (foldl_app _ _ [a]). reflexivity.
Qed.

Lemma modifyRequest_chain (p : Proxy R) (r : Request) :
  ∃ r', modifyRequest p r = chain (reqModifiers p) nopReqModifier r'
        ∧ Req_ctx r' = Req_ctx r ∧ Req_Body r' = Req_Body r.
Proof.
  unfold modifyRequest. rewrite (wrap_down_chain (reqModifiers p)).
  eexists. split; [reflexivity|]. case_decide; split; reflexivity.
Qed.

Lemma modifyResponse_chain (p : Proxy R) (res : Response) :
  modifyResponse p res = chain (resModifiers p) nopResModifier res.
Proof.
  unfold modifyResponse. by rewrite (wrap_down_chain (resModifiers p)).
Qed.

(** C7. The engine composes the registered middlewares so that the first
    registered one is outermost: the request pipeline is
    [m1 (m2 (... (mn nopReqModifier)))] and the response pipeline is
    [m1 (m2 (... (mn nopResModifier)))] for the middlewares in registration
    order, so [m1] runs first and decides when the rest runs.  For
    middlewares that act before and after calling [next], the actions
    before run in registration order and the actions after in reverse
    registration order, around a leaf that does nothing. *)
Theorem pipeline_runs_in_registration_order :
  (∀ (p : Proxy R) fns gns,
      reqModifiers (UseRequestModifier p fns) = reqModifiers p ++ fns
      ∧ resModifiers (UseResponseModifier p gns) = resModifiers p ++ gns)
  ∧ (∀ (p : Proxy R) r, ∃ r',
      modifyRequest p r = chain (reqModifiers p) nopReqModifier r')
  ∧ (∀ (p : Proxy R) res,
      modifyResponse p res = chain (resModifiers p) nopResModifier res)
  ∧ (∀ (m : RequestModifyMiddleware R) ms, chain (m :: ms) nopReqModifier
                                           = m (chain ms nopReqModifier))
  ∧ (∀ (m : ResponseModifyMiddleware R) ms, chain (m :: ms) nopResModifier
                                            = m (chain ms nopResModifier))
  ∧ (∀ (hooks : list ((World R → World R) * (World R → World R))) r w,
      (modifyRequest (UseRequestModifier NewProxy (around_req <$> hooks)) r w).2
      = in_sequence ((fst <$> hooks) ++ reverse (snd <$> hooks)) w)
  ∧ (∀ (hooks : list ((World R → World R) * (World R → World R))) res w,
      modifyResponse (UseResponseModifier NewProxy (around_res <$> hooks)) res w
      = ((res, None), in_sequence ((fst <$> hooks) ++ reverse (snd <$> hooks)) w)).
Proof.
  repeat split.
  - intros p r. destruct (modifyRequest_chain p r) as (r' & Hr' & _). eauto.
  - apply modifyResponse_chain.
  - intros hooks r w.
    destruct (modifyRequest_chain
                (UseRequestModifier NewProxy (around_req <$> hooks)) r)
      as (r' & -> & _).
    cbn [UseRequestModifier NewProxy reqModifiers app].
    by rewrite chain_around_req.
  - intros hooks res w. rewrite modifyResponse_chain.
    cbn [UseResponseModifier NewProxy resModifiers app].
    apply chain_around_res.
Qed.

(** C8. A request that enters [modifyRequest] with an empty URL scheme
    reaches the middleware chain with scheme [https] and with the URL's host
    set to the request's [Host]; a request whose URL scheme is not empty
    reaches the chain with its URL unchanged. *)
Theorem modifyRequest_fixes_URL (r : Request) :
  ∃ r',
    (∀ p : Proxy R, modifyRequest p r = chain (reqModifiers p) nopReqModifier r')
    ∧ (Scheme (Req_URL r) = "" →
       Scheme (Req_URL r') = "https" ∧ URL_Host (Req_URL r') = Host r
       ∧ Path (Req_URL r') = Path (Req_URL r)
       ∧ RawQuery (Req_URL r') = RawQuery (Req_URL r))
    ∧ (Scheme (Req_URL r) ≠ "" → Req_URL r' = Req_URL r).
Proof.
  eexists. split; [|split].
  - intros p. unfold modifyRequest.
    rewrite (wrap_down_chain (reqModifiers p)). reflexivity.
  - intros Hs. by rewrite decide_True.
  - intros Hs. by rewrite decide_False.
Qed.
End EngineProperties.

Section LoggerProperties.
Context {R : Type} `{!Repository R} `{!Gzip}.

Implicit Types (svc : service) (w : World R) (req : Request) (res : Response).

(** The request modifier on a request whose body is absent or read to the
    end: the live request and the copy agree from there on. *)
Lemma RequestModifier_captured svc (next : RequestModifyFunc R) req w req1 w1
    clone body :
  next req w = (req1, w1) →
  captured req1 = Some (clone, body) →
  RequestModifier svc next req w = log_request svc clone clone body w1.
Proof.
  intros Hnext Hcap. unfold RequestModifier, bind. rewrite Hnext.
  unfold captured in Hcap. destruct (Req_Body req1) as [rd|] eqn:Hb.
  - unfold ioutil_ReadAll. destruct (failure rd); [discriminate|].
    by injection Hcap as <- <-.
  - by injection Hcap as <- <-.
Qed.

(** The request modifier on a request whose body cannot be read. *)
Lemma RequestModifier_read_error svc (next : RequestModifyFunc R) req w req1 w1
    rd e :
  next req w = (req1, w1) →
  Req_Body req1 = Some rd →
  failure rd = Some e →
  RequestModifier svc next req w
  = (Request_set_Body req1 (Some (drained rd)),
     (log (Errorw "Failed to read request body for logging." e) w1).2).
Proof.
  intros Hnext Hb He. unfold RequestModifier, bind. rewrite Hnext, Hb.
  unfold ioutil_ReadAll. rewrite He. reflexivity.
Qed.

Lemma captured_cases req :
  (∃ clone body, captured req = Some (clone, body))
  ∨ (∃ rd e, Req_Body req = Some rd ∧ failure rd = Some e).
Proof.
  unfold captured. destruct (Req_Body req) as [rd|]; [|eauto].
  destruct (failure rd) eqn:He; eauto.
Qed.

Lemma captured_ctx req clone body :
  captured req = Some (clone, body) → Req_ctx clone = Req_ctx req.
Proof.
  unfold captured. destruct (Req_Body req) as [rd|].
  - destruct (failure rd); [discriminate|]. by intros [= <- _].
  - by intros [= <- _].
Qed.

(** What [log_request] does to the repository, in each of its branches. *)
Lemma log_request_calls svc req clone body w :
  ∃ new,
    calls (log_request svc req clone body w).2 = new ++ calls w
    ∧ spawned (log_request svc req clone body w).2 = spawned w
    ∧ ((new = [] ∧ repo (log_request svc req clone body w).2 = repo w)
       ∨ (activeProjectID svc ≠ ulid_zero
          ∧ ∃ l, new = [CallStoreRequestLog l]
                 ∧ ProjectID l = activeProjectID svc)).
Proof.
  unfold log_request.
  destruct (decide (ulid_Compare (activeProjectID svc) ulid_zero = 0%Z)) as [Hz|Hz].
  { exists []. eauto. }
  assert (activeProjectID svc ≠ ulid_zero) as Hne.
  { intros Heq. apply Hz. rewrite Heq. reflexivity. }
  destruct (bypassOutOfScopeRequests svc && negb (scope svc clone body)).
  { exists []. eauto. }
  unfold bind, new_ULID, svc_StoreRequestLog. cbn [repo calls].
  match goal with |- context [StoreRequestLog ?r ?l] =>
    exists [CallStoreRequestLog l]; destruct (StoreRequestLog r l) as [r' [e|]]
  end; cbn; eauto 10.
Qed.
End LoggerProperties.

Section LoggerClaims.
Context {R : Type} `{!Repository R} `{!Gzip}.

Implicit Types (svc : service) (w : World R) (req : Request) (res : Response).

(** C9. When the inner chain returns an error, the response modifier
    returns that error and leaves everything as the inner chain left it:
    the response is the inner chain's (its body is not read or replaced)
    and so is the world (nothing stored, no task started, nothing logged). *)
Theorem ResponseModifier_inner_error svc (next : ResponseModifyFunc R) res w
    res1 e w1 :
  next res w = (res1, Some e, w1) →
  ResponseModifier svc next res w = (res1, Some e, w1).
Proof.
  intros Hnext. unfold ResponseModifier, bind. rewrite Hnext. reflexivity.
Qed.

(** C10, amended.  When the request context of the response carries
    LOG_BYPASSED=true, the response modifier returns exactly what the inner
    chain returned: the same response (body and headers as they were,
    nothing read or replaced), the same world (nothing stored, no task
    started, nothing logged) and the inner chain's result, which is success
    whenever the inner chain succeeded and the inner chain's error
    otherwise. *)
Theorem ResponseModifier_bypassed svc (next : ResponseModifyFunc R) res w :
  assert_bool (context_Value (Req_ctx (Res_Request (next res w).1.1)) LogBypassedKey)
  = true →
  ResponseModifier svc next res w = next res w
  ∧ ((next res w).1.2 = None → (ResponseModifier svc next res w).1.2 = None).
Proof.
  intros Hb.
  assert (ResponseModifier svc next res w = next res w) as Heq.
  { unfold ResponseModifier, bind.
    destruct (next res w) as [[res1 [e|]] w1]; [reflexivity|].
    cbn in Hb. cbn zeta. rewrite Hb. reflexivity. }
  split; [exact Heq|]. by rewrite Heq.
Qed.


(** C5, amended.  With [bypassOutOfScopeRequests] on and a scope that does
    not match the copy of the request and its body, the request modifier
    never calls the repository, and the response modifier, given a response
    to that request, hands on the inner chain's response and world without
    storing anything or starting a task: the exchange leaves no request log
    and no response log.  When the request body could not be read the
    modifier leaves the context as the inner chain left it, so this needs
    the inner chain to have left no log id there.  When the body is absent
    or read without error the request is left with LOG_BYPASSED=true on its
    context and the response modifier returns what the inner chain
    returned. *)
Theorem out_of_scope_bypasses svc (next : RequestModifyFunc R) req w req1 w1 :
  bypassOutOfScopeRequests svc = true →
  next req w = (req1, w1) →
  (∀ clone body, captured req1 = Some (clone, body) → scope svc clone body = false) →
  ∃ req' w',
    RequestModifier svc next req w = (req', w')
    ∧ calls w' = calls w1 ∧ repo w' = repo w1 ∧ spawned w' = spawned w1
    ∧ (is_Some (captured req1) →
       context_Value (Req_ctx req') LogBypassedKey = Some (any_bool true))
    ∧ ∀ (next' : ResponseModifyFunc R) res w2 res1 err w3,
        next' res w2 = (res1, err, w3) →
        Req_ctx (Res_Request res1) = Req_ctx req' →
        is_Some (captured req1)
        ∨ assert_ULID (context_Value (Req_ctx req1) ReqLogIDKey) = None →
        ∃ err', ResponseModifier svc next' res w2 = (res1, err', w3)
                ∧ (is_Some (captured req1) → err' = err).
Proof.
  intros Hby Hnext Hsc.
  destruct (captured_cases req1) as [(clone & body & Hcap)|(rd & e & Hb & He)].
  - rewrite (RequestModifier_captured _ _ _ _ _ _ _ _ Hnext Hcap).
    unfold log_request. rewrite Hby, (Hsc _ _ Hcap). cbn [negb andb].
    assert (∀ req' : Request,
      context_Value (Req_ctx req') LogBypassedKey = Some (any_bool true) →
      ∀ (next' : ResponseModifyFunc R) res w2 res1 err w3,
        next' res w2 = (res1, err, w3) →
        Req_ctx (Res_Request res1) = Req_ctx req' →
        ResponseModifier svc next' res w2 = (res1, err, w3)) as Hres.
    { intros req' Hctx next' res w2 res1 [e|] w3 Hn Heq.
      - unfold ResponseModifier, bind. rewrite Hn. reflexivity.
      - unfold ResponseModifier, bind. rewrite Hn.
        cbn zeta. rewrite Heq, Hctx. reflexivity. }
    destruct (decide _).
    all: do 2 eexists; split; [reflexivity|].
    all: do 3 (split; [reflexivity|]).
    all: split; [intros _; reflexivity|].
    all: intros next' res w2 res1 err w3 Hn Heq _; exists err.
    all: split; [|done].
    all: eapply Hres; [|exact Hn|exact Heq]; reflexivity.
  - rewrite (RequestModifier_read_error _ _ _ _ _ _ _ _ Hnext Hb He).
    assert (captured req1 = None) as Hnone.
    { unfold captured. by rewrite Hb, He. }
    do 2 eexists. split; [reflexivity|]. do 3 (split; [reflexivity|]).
    split.
    { rewrite Hnone. intros [? ?]. discriminate. }
    intros next' res w2 res1 err w3 Hn Heq [Hcap|Hid].
    { rewrite Hnone in Hcap. destruct Hcap. discriminate. }
    cbn [Req_ctx Request_set_Body] in Heq.
    unfold ResponseModifier, bind. rewrite Hn. destruct err as [e'|].
    + eexists. split; [reflexivity|]. rewrite Hnone. intros [? ?]. discriminate.
    + cbn zeta. rewrite Heq, Hid.
      destruct (assert_bool _); eexists; (split; [reflexivity|]);
        rewrite Hnone; intros [? ?]; discriminate.
Qed.

(** C6. Every request log the request modifier passes to [StoreRequestLog]
    carries the active project id, and that id is not zero: the modifier
    makes at most one store call, and none while no project is active. *)
Theorem stored_log_has_active_project svc (next : RequestModifyFunc R) req w :
  ∃ new,
    calls (RequestModifier svc next req w).2 = new ++ calls (next req w).2
    ∧ (new = []
       ∨ (activeProjectID svc ≠ ulid_zero
          ∧ ∃ l, new = [CallStoreRequestLog l]
                 ∧ ProjectID l = activeProjectID svc
                 ∧ ProjectID l ≠ ulid_zero)).
Proof.
  destruct (next req w) as [req1 w1] eqn:Hnext.
  destruct (captured_cases req1) as [(clone & body & Hcap)|(rd & e & Hb & He)].
  - rewrite (RequestModifier_captured _ _ _ _ _ _ _ _ Hnext Hcap).
    destruct (log_request_calls svc clone clone body w1)
      as (new & Hcalls & _ & [[-> _]|(Hne & l & -> & Hl)]).
    + exists []. eauto.
    + exists [CallStoreRequestLog l]. split; [done|]. right.
      split; [done|]. exists l. rewrite Hl. eauto.
  - rewrite (RequestModifier_read_error _ _ _ _ _ _ _ _ Hnext Hb He).
    exists []. eauto.
Qed.
End LoggerClaims.

Section CaptureClaims.
Context {R : Type} `{!Repository R} `{!Gzip}.

Implicit Types (svc : service) (w : World R) (req : Request) (res : Response).

(** When the store fails, [log_request] logs the failure and hands the
    request on without a log id and without the bypass flag. *)
Lemma log_request_store_failure svc req clone body w r' e :
  activeProjectID svc ≠ ulid_zero →
  bypassOutOfScopeRequests svc && negb (scope svc clone body) = false →
  (∀ l, ProjectID l = activeProjectID svc →
        StoreRequestLog (repo w) l = (r', Some e)) →
  ∃ w', log_request svc req clone body w = (req, w')
        ∧ logged w' = Errorw "Failed to store request log." e :: logged w.
Proof.
  intros Hne Hby Hfail. unfold log_request.
  rewrite decide_False; last first.
  { unfold ulid_Compare. intros Hc. apply Hne.
    destruct (N.compare_spec (activeProjectID svc) ulid_zero); done. }
  rewrite Hby. unfold bind, new_ULID, svc_StoreRequestLog. cbn [repo].
  rewrite Hfail by reflexivity. eexists. split; reflexivity.
Qed.

(** A response whose request carries neither the bypass flag nor a log id
    makes the response modifier fail. *)
Lemma ResponseModifier_missing_ID svc (next : ResponseModifyFunc R) res w res1 w1 :
  next res w = (res1, None, w1) →
  assert_bool (context_Value (Req_ctx (Res_Request res1)) LogBypassedKey) = false →
  assert_ULID (context_Value (Req_ctx (Res_Request res1)) ReqLogIDKey) = None →
  ResponseModifier svc next res w
  = (res1, Some (errors_New "reqlog: request is missing ID"), w1).
Proof.
  intros Hnext Hb Hid. unfold ResponseModifier, bind. rewrite Hnext.
  cbn zeta. rewrite Hb, Hid. reflexivity.
Qed.

(** An error that is not a cancellation is answered with 502. *)
Lemma errorHandler_502 (e : error) w :
  errors_Is_Canceled e = false →
  (errorHandler e w).1 = WroteStatus StatusBadGateway.
Proof. intros He. unfold errorHandler. rewrite He. reflexivity. Qed.

Lemma ParseHTTPResponse_body_gzip res d :
  Header_Get (Res_Header res) "Content-Encoding" = "gzip" →
  gzip_NewReader (Res_Body res) = inr (bytes_NewBuffer d) →
  ParseHTTPResponse res = inr (ResponseLog_of res d).
Proof.
  intros Hgz Hdec. unfold ParseHTTPResponse.
  rewrite decide_True by done. rewrite Hdec. reflexivity.
Qed.

(** C3, amended.  For a response whose [Content-Encoding] is [gzip] and
    whose body the decoder decodes to [d], [ParseHTTPResponse] returns a
    log whose body is [d] and whose header map is the response's header map
    as it was, [Content-Encoding: gzip] included.  For any other response
    whose body can be read, the log's body is the body as it is. *)
Theorem ParseHTTPResponse_decodes_body_keeps_header res :
  (∀ d,
      Header_Get (Res_Header res) "Content-Encoding" = "gzip" →
      gzip_NewReader (Res_Body res) = inr (bytes_NewBuffer d) →
      ParseHTTPResponse res = inr (ResponseLog_of res d)
      ∧ RL_Body (ResponseLog_of res d) = d
      ∧ RL_Header (ResponseLog_of res d) = Res_Header res
      ∧ Header_Get (RL_Header (ResponseLog_of res d)) "Content-Encoding" = "gzip")
  ∧ (Header_Get (Res_Header res) "Content-Encoding" ≠ "gzip" →
     failure (Res_Body res) = None →
     ParseHTTPResponse res = inr (ResponseLog_of res (content (Res_Body res)))
     ∧ RL_Body (ResponseLog_of res (content (Res_Body res))) = content (Res_Body res)).
Proof.
  split.
  - intros d Hgz Hdec. by rewrite (ParseHTTPResponse_body_gzip _ d).
  - intros Hgz Hok. unfold ParseHTTPResponse.
    rewrite decide_False by done. unfold ioutil_ReadAll. rewrite Hok. done.
Qed.

(** C2, amended.  A response with [Content-Encoding: gzip] that passes
    through the response modifier goes on to the client with the bytes it
    came with, still gzip-encoded, and with its headers as they were; the
    task the modifier starts stores a response log whose body is the
    decoded bytes. *)
Theorem gzip_response_logged_decoded_forwarded_encoded svc
    (next : ResponseModifyFunc R) res w res1 w1 reqLogID raw d :
  next res w = (res1, None, w1) →
  assert_bool (context_Value (Req_ctx (Res_Request res1)) LogBypassedKey) = false →
  assert_ULID (context_Value (Req_ctx (Res_Request res1)) ReqLogIDKey) = Some reqLogID →
  Header_Get (Res_Header res1) "Content-Encoding" = "gzip" →
  Res_Body res1 = bytes_NewBuffer raw →
  gzip_NewReader (bytes_NewBuffer raw) = inr (bytes_NewBuffer d) →
  ∃ task,
    ResponseModifier svc next res w = (res1, None, (go task w1).2)
    ∧ content (Res_Body res1) = raw
    ∧ ∀ w2, calls (run_task task w2).2
            = CallStoreResponseLog reqLogID (ResponseLog_of res1 d) :: calls w2.
Proof.
  intros Hnext Hb Hid Hgz Hbody Hdec.
  exists (TaskStoreResponse reqLogID res1). split; [|split].
  - unfold ResponseModifier, bind. rewrite Hnext. cbn zeta.
    rewrite Hb, Hid, Hbody. cbn.
    replace (Response_set_Body res1 (bytes_NewBuffer raw)) with res1; [done|].
    destruct res1; cbn in *. by subst.
  - by rewrite Hbody.
  - intros w2. unfold run_task, storeResponse, bind.
    assert (ParseHTTPResponse res1 = inr (ResponseLog_of res1 d)) as ->.
    { apply ParseHTTPResponse_body_gzip; [done|]. by rewrite Hbody. }
    unfold svc_StoreResponseLog.
    destruct (StoreResponseLog _ _ _) as [r' [e|]]; reflexivity.
Qed.
End CaptureClaims.

(** * The properties on concrete exchanges *)

Module Runs.
Import Fixtures.

(** C1. The repository refuses the request log; the request modifier logs
    the failure and lets the request go upstream without a log id, the
    upstream answers [200 OK], and the response modifier then fails with
    "request is missing ID": the client gets [502 Bad Gateway]. *)
Theorem store_failure_renders_502 :
  ∃ w',
    handler_ServeHTTP (proxy_with_logger svc_active) upstream_hello req_get broken0
    = (WroteStatus StatusBadGateway, w')
    ∧ calls w' = [CallStoreRequestLog
                    {| ID := ulid_MustNew 1700000000000 7; ProjectID := project1;
                       Log_URL := Req_URL req_get; Log_Method := "GET";
                       Log_Proto := "HTTP/1.1";
                       Log_Header := <["X-Forwarded-For" := []]> (Req_Header req_get);
                       Log_Body := []; Log_Response := None |}]
    ∧ logged w' = [Errorw "Failed to proxy request."
                     (errors_New "reqlog: request is missing ID");
                   Errorw "Failed to store request log." ErrBrokenRepo].
Proof. eexists. split; [|split]; vm_compute; reflexivity. Qed.

(** C2 fails as stated: the upstream answers with gzip([world]); the client
    gets the gzip bytes as they came, with [Content-Encoding: gzip] still
    on the response, and not the bytes [world]; the stored response log
    holds [world]. *)
Lemma gzip_body_reaches_client_encoded :
  ∃ res' task w',
    handler_ServeHTTP (proxy_with_logger svc_active) upstream_gz req_get mem0
    = (WroteResponse res', w')
    ∧ Header_Get (Res_Header res') "Content-Encoding" = "gzip"
    ∧ gzip_NewReader (Res_Body (res_gz req_get))
      = inr (bytes_NewBuffer (String.list_byte_of_string "world"))
    ∧ content (Res_Body res') = StoredGzip.gz_world
    ∧ content (Res_Body res') ≠ String.list_byte_of_string "world"
    ∧ spawned w' = [task]
    ∧ (RL_Body <$> (head (repo (run_task task w').2) ≫= Log_Response))
      = Some (String.list_byte_of_string "world").
Proof.
  do 3 eexists. split; [vm_compute; reflexivity|].
  split; [reflexivity|]. split; [vm_compute; reflexivity|].
  split; [reflexivity|]. split; [discriminate|].
  split; [reflexivity|]. vm_compute. reflexivity.
Qed.

Lemma gzip_response_logged_decoded_forwarded_encoded_witness :
  ∃ task,
    ResponseModifier svc_active nopResModifier (res_gz (logged_as 5%N req_get)) mem0
    = (res_gz (logged_as 5%N req_get), None, (go task mem0).2)
    ∧ content (Res_Body (res_gz (logged_as 5%N req_get))) = StoredGzip.gz_world
    ∧ ∀ w2 : World MemRepo,
        calls (run_task task w2).2
        = CallStoreResponseLog 5%N
            (ResponseLog_of (res_gz (logged_as 5%N req_get))
               (String.list_byte_of_string "world")) :: calls w2.
Proof.
  apply (gzip_response_logged_decoded_forwarded_encoded
           svc_active nopResModifier (res_gz (logged_as 5%N req_get)) mem0
           (res_gz (logged_as 5%N req_get)) mem0 5%N StoredGzip.gz_world
           (String.list_byte_of_string "world")).
  - reflexivity.
  - reflexivity.
  - reflexivity.
  - reflexivity.
  - reflexivity.
  - vm_compute. reflexivity.
Defined.

(** C3 fails as stated: the log of a gzipped response holds the decoded
    body, and its header map still holds [Content-Encoding: gzip]. *)
Lemma ParseHTTPResponse_keeps_gzip_header :
  ∃ resLog,
    ParseHTTPResponse (res_gz req_get) = inr resLog
    ∧ RL_Body resLog = String.list_byte_of_string "world"
    ∧ RL_Header resLog !! "Content-Encoding" = Some ["gzip"].
Proof. eexists. split; [vm_compute; reflexivity|]. split; reflexivity. Qed.

Lemma ParseHTTPResponse_decodes_body_keeps_header_witness :
  (ParseHTTPResponse (res_gz req_get)
   = inr (ResponseLog_of (res_gz req_get) (String.list_byte_of_string "world"))
   ∧ Header_Get (RL_Header (ResponseLog_of (res_gz req_get)
                              (String.list_byte_of_string "world")))
       "Content-Encoding" = "gzip")
  ∧ ParseHTTPResponse (res_hello req_get)
    = inr (ResponseLog_of (res_hello req_get) (String.list_byte_of_string "hello")).
Proof.
  split.
  - destruct (proj1 (ParseHTTPResponse_decodes_body_keeps_header (res_gz req_get))
                (String.list_byte_of_string "world"))
      as (Hlog & _ & _ & Hhdr).
    + reflexivity.
    + vm_compute. reflexivity.
    + split; [exact Hlog|exact Hhdr].
  - apply (proj2 (ParseHTTPResponse_decodes_body_keeps_header (res_hello req_get))).
    + discriminate.
    + reflexivity.
Defined.



(** C5 fails as stated: out-of-scope requests are bypassed and the scope
    does not match the request, but its body breaks off; the request goes
    on without LOG_BYPASSED, and the response modifier fails on the
    response instead of returning for a bypassed exchange. *)
Lemma unread_body_not_flagged_out_of_scope :
  bypassOutOfScopeRequests svc_scoped = true
  ∧ scope svc_scoped (Request_Clone req_broken) (String.list_byte_of_string "hel")
    = false
  ∧ context_Value
      (Req_ctx (RequestModifier svc_scoped nopReqModifier req_broken mem0).1)
      LogBypassedKey = None
  ∧ (ResponseModifier svc_scoped nopResModifier
       (res_hello (RequestModifier svc_scoped nopReqModifier req_broken mem0).1)
       mem0).1.2
    = Some (errors_New "reqlog: request is missing ID").
Proof. repeat split; vm_compute; reflexivity. Qed.

Lemma out_of_scope_bypasses_witness :
  (∃ req' w',
      RequestModifier svc_scoped nopReqModifier req_get mem0 = (req', w')
      ∧ context_Value (Req_ctx req') LogBypassedKey = Some (any_bool true)
      ∧ calls w' = [] ∧ repo w' = []
      ∧ ResponseModifier svc_scoped nopResModifier (res_hello req') w'
        = (res_hello req', None, w'))
  ∧ (∃ req' w',
        RequestModifier svc_scoped nopReqModifier req_broken mem0 = (req', w')
        ∧ calls w' = [] ∧ repo w' = []
        ∧ ∃ err', ResponseModifier svc_scoped nopResModifier (res_hello req') w'
                  = (res_hello req', err', w')).
Proof.
  split.
  - destruct (out_of_scope_bypasses svc_scoped nopReqModifier req_get mem0
                req_get mem0 eq_refl eq_refl)
      as (req' & w' & Hrun & Hcalls & Hrepo & _ & Hflag & Hres).
    { intros clone body [= <- <-]. reflexivity. }
    exists req', w'. split; [exact Hrun|].
    split; [apply Hflag; by eexists|].
    split; [exact Hcalls|]. split; [exact Hrepo|].
    destruct (Hres nopResModifier (res_hello req') w' (res_hello req') None w'
                eq_refl eq_refl (or_introl (ex_intro _ _ eq_refl)))
      as (err' & Hrm & Herr).
    rewrite Hrm. f_equal. f_equal. apply Herr. by eexists.
  - destruct (out_of_scope_bypasses svc_scoped nopReqModifier req_broken mem0
                req_broken mem0 eq_refl eq_refl)
      as (req' & w' & Hrun & Hcalls & Hrepo & _ & _ & Hres).
    { intros clone body Hc. discriminate Hc. }
    exists req', w'. split; [exact Hrun|]. split; [exact Hcalls|].
    split; [exact Hrepo|].
    destruct (Hres nopResModifier (res_hello req') w' (res_hello req') None w'
                eq_refl eq_refl (or_intror eq_refl))
      as (err' & Hrm & _).
    exists err'. exact Hrm.
Defined.

Lemma modifyRequest_fixes_URL_witness :
  (∃ r', modifyRequest NewProxy req_tunnelled mem0 = (r', mem0)
         ∧ Scheme (Req_URL r') = "https"
         ∧ URL_Host (Req_URL r') = "secure.test"
         ∧ Path (Req_URL r') = "/x")
  ∧ (∃ r', modifyRequest NewProxy req_get mem0 = (r', mem0)
           ∧ Req_URL r' = Req_URL req_get).
Proof.
  split.
  - destruct (modifyRequest_fixes_URL (R:=MemRepo) req_tunnelled)
      as (r' & Hchain & Hfix & _).
    exists r'. rewrite (Hchain NewProxy).
    destruct (Hfix eq_refl) as (Hs & Hh & Hp & _).
    split; [reflexivity|]. split; [exact Hs|]. split; [exact Hh|exact Hp].
  - destruct (modifyRequest_fixes_URL (R:=MemRepo) req_get)
      as (r' & Hchain & _ & Hkeep).
    exists r'. rewrite (Hchain NewProxy).
    split; [reflexivity|]. apply Hkeep. discriminate.
Defined.

Lemma ResponseModifier_inner_error_witness :
  ResponseModifier svc_active failing_res (res_hello (logged_as 5%N req_get)) mem0
  = (res_hello (logged_as 5%N req_get), Some (errors_New "inner: refused"), mem0).
Proof. apply ResponseModifier_inner_error. reflexivity. Defined.

(** C10 fails as stated: the request context carries LOG_BYPASSED=true and
    the inner chain fails; the response modifier returns the inner chain's
    error, not success. *)
Lemma bypassed_inner_failure_is_returned :
  assert_bool
    (context_Value (Req_ctx (Res_Request (res_hello (bypassed req_get))))
       LogBypassedKey) = true
  ∧ ResponseModifier svc_idle failing_res (res_hello (bypassed req_get)) mem0
    = (res_hello (bypassed req_get), Some (errors_New "inner: refused"), mem0)
  ∧ (ResponseModifier svc_idle failing_res (res_hello (bypassed req_get)) mem0).1.2
    ≠ None.
Proof. split; [reflexivity|]. split; [reflexivity|discriminate]. Qed.

Lemma ResponseModifier_bypassed_witness :
  ResponseModifier svc_idle nopResModifier (res_gz (bypassed req_get)) mem0
  = (res_gz (bypassed req_get), None, mem0).
Proof.
  exact (proj1 (ResponseModifier_bypassed svc_idle nopResModifier
                  (res_gz (bypassed req_get)) mem0 eq_refl)).
Defined.
End Runs.

(** * Further properties of the request logger *)

Section LoggerFrame.
Context {R : Type} `{!Repository R} `{!Gzip}.

Implicit Types (svc : service) (w : World R) (req : Request) (res : Response).

Lemma Request_WithContext_same req : Request_WithContext req (Req_ctx req) = req.
Proof. by destruct req. Qed.

Lemma captured_fields req clone body :
  captured req = Some (clone, body) →
  Method clone = Method req ∧ Req_URL clone = Req_URL req
  ∧ Req_Proto clone = Req_Proto req ∧ Req_Header clone = Req_Header req
  ∧ Host clone = Host req ∧ Req_ctx clone = Req_ctx req
  ∧ match Req_Body req with
    | Some rd => failure rd = None ∧ body = content rd
                 ∧ Req_Body clone = Some (bytes_NewBuffer (content rd))
    | None => body = [] ∧ Req_Body clone = None
    end.
Proof.
  unfold captured. destruct (Req_Body req) as [rd|] eqn:Hb.
  - destruct (failure rd); [discriminate|]. intros [= <- <-]. cbn. done.
  - intros [= <- <-]. rewrite Hb. done.
Qed.

(** The three ways [log_request] can end: the request untouched (the store
    failed), the bypass flag pushed, or the id of the stored log pushed. *)
Lemma log_request_outcome svc req clone body w :
  let l := built_log svc clone body w in
  ∃ ctx' w',
    log_request svc req clone body w = (Request_WithContext req ctx', w')
    ∧ ((ctx' = (LogBypassedKey, any_bool true) :: Req_ctx req
        ∧ calls w' = calls w ∧ repo w' = repo w)
       ∨ (ctx' = Req_ctx req
          ∧ calls w' = CallStoreRequestLog l :: calls w
          ∧ ∃ e, StoreRequestLog (repo w) l = (repo w', Some e))
       ∨ (ctx' = (ReqLogIDKey, any_ULID (ID l)) :: Req_ctx req
          ∧ calls w' = CallStoreRequestLog l :: calls w
          ∧ StoreRequestLog (repo w) l = (repo w', None))).
Proof.
  intros l. unfold log_request.
  destruct (decide _) as [Hz|Hz].
  { do 2 eexists. split; [reflexivity|]. left. done. }
  destruct (bypassOutOfScopeRequests svc && negb (scope svc clone body)).
  { do 2 eexists. split; [reflexivity|]. left. done. }
  unfold bind, new_ULID, svc_StoreRequestLog. cbn [repo calls].
  fold (built_log svc clone body w). fold l.
  destruct (StoreRequestLog (repo w) l) as [r' [e|]] eqn:Hst.
  - exists (Req_ctx req). eexists. rewrite Request_WithContext_same.
    split; [reflexivity|]. right. left. cbn. eauto.
  - do 2 eexists. split; [reflexivity|]. right. right. cbn. eauto.
Qed.

(** X1. The request modifier hands the request on as the inner chain left it:
    method, URL, protocol, headers and host are unchanged, and a body that
    was read without error is put back as a buffer over the same bytes, so
    the upstream reads what the logger read.  A request without a body stays
    without one. *)
Theorem RequestModifier_keeps_request svc (next : RequestModifyFunc R) req w
    req1 w1 clone body :
  next req w = (req1, w1) →
  captured req1 = Some (clone, body) →
  ∃ req' w',
    RequestModifier svc next req w = (req', w')
    ∧ Method req' = Method req1 ∧ Req_URL req' = Req_URL req1
    ∧ Req_Proto req' = Req_Proto req1 ∧ Req_Header req' = Req_Header req1
    ∧ Host req' = Host req1
    ∧ match Req_Body req1 with
      | Some rd => Req_Body req' = Some (bytes_NewBuffer (content rd))
                   ∧ body = content rd
      | None => Req_Body req' = None
      end.
Proof.
  intros Hnext Hcap.
  rewrite (RequestModifier_captured _ _ _ _ _ _ _ _ Hnext Hcap).
  destruct (log_request_outcome svc clone clone body w1) as (ctx' & w' & -> & _).
  destruct (captured_fields _ _ _ Hcap) as (Hm & Hu & Hp & Hh & Hho & _ & Hb).
  do 2 eexists. split; [reflexivity|]. cbn.
  repeat (split; [done|]).
  destruct (Req_Body req1) as [rd|].
  - destruct Hb as (_ & Hbody & Hclone). by split.
  - by destruct Hb.
Qed.

(** X2. With an active project and a request that is not bypassed, a store
    that succeeds leaves the request with the id of the stored log under
    [ReqLogIDKey]; the log that was stored holds the active project id and
    the method, URL, protocol, headers and body of the request as the inner
    chain left it, and its id is made of the clock and the next entropy
    draw. *)
Theorem RequestModifier_stores_request svc (next : RequestModifyFunc R) req w
    req1 w1 clone body r' :
  next req w = (req1, w1) →
  captured req1 = Some (clone, body) →
  activeProjectID svc ≠ ulid_zero →
  bypassOutOfScopeRequests svc && negb (scope svc clone body) = false →
  StoreRequestLog (repo w1) (built_log svc req1 body w1) = (r', None) →
  ∃ w',
    RequestModifier svc next req w
    = (Request_WithContext clone
         ((ReqLogIDKey, any_ULID (ulid_MustNew (clock w1) (entropy w1 (drawn w1))))
            :: Req_ctx req1), w')
    ∧ calls w' = CallStoreRequestLog (built_log svc req1 body w1) :: calls w1
    ∧ repo w' = r' ∧ drawn w' = S (drawn w1) ∧ spawned w' = spawned w1
    ∧ logged w' = Debugw "Stored request log." :: logged w1.
Proof.
  intros Hnext Hcap Hne Hby Hst.
  rewrite (RequestModifier_captured _ _ _ _ _ _ _ _ Hnext Hcap).
  destruct (captured_fields _ _ _ Hcap) as (Hm & Hu & Hp & Hh & _ & Hc & _).
  assert (built_log svc clone body w1 = built_log svc req1 body w1) as Hl.
  { unfold built_log. by rewrite Hm, Hu, Hp, Hh. }
  unfold log_request. rewrite decide_False; last first.
  { unfold ulid_Compare. intros Hcmp. apply Hne.
    destruct (N.compare_spec (activeProjectID svc) ulid_zero); done. }
  rewrite Hby. unfold bind, new_ULID, svc_StoreRequestLog. cbn [repo calls].
  fold (built_log svc clone body w1). rewrite Hl, Hst. cbn.
  rewrite Hc. eexists. split; [reflexivity|]. done.
Qed.

(** X3. The request modifier pushes at most one frame on the request context:
    none, LOG_BYPASSED=true, or a request-log id, never both.  An id is
    pushed only for a log that the repository has just accepted. *)
Theorem RequestModifier_pushes_one_frame svc (next : RequestModifyFunc R) req w :
  let ctx1 := Req_ctx (next req w).1 in
  let w1 := (next req w).2 in
  let ctx' := Req_ctx (RequestModifier svc next req w).1 in
  let w' := (RequestModifier svc next req w).2 in
  ctx' = ctx1
  ∨ ctx' = (LogBypassedKey, any_bool true) :: ctx1
  ∨ ∃ l, ctx' = (ReqLogIDKey, any_ULID (ID l)) :: ctx1
         ∧ calls w' = CallStoreRequestLog l :: calls w1
         ∧ StoreRequestLog (repo w1) l = (repo w', None).
Proof.
  destruct (next req w) as [req1 w1] eqn:Hnext. cbn [fst snd].
  destruct (captured_cases req1) as [(clone & body & Hcap)|(rd & e & Hb & He)].
  - rewrite (RequestModifier_captured _ _ _ _ _ _ _ _ Hnext Hcap).
    rewrite <- (captured_ctx _ _ _ Hcap).
    destruct (log_request_outcome svc clone clone body w1)
      as (ctx' & w' & -> & [(-> & _)|[(-> & _)|(-> & Hcalls & Hst)]]); cbn.
    + right. by left.
    + by left.
    + right. right. exists (built_log svc clone body w1).
      split; [reflexivity|]. split; [exact Hcalls|exact Hst].
  - rewrite (RequestModifier_read_error _ _ _ _ _ _ _ _ Hnext Hb He). by left.
Qed.

(** X4. Whatever else the inner chain has put on the request context is still
    found there after the request modifier: only the two keys of the logger
    can change their value. *)
Theorem RequestModifier_keeps_foreign_keys svc (next : RequestModifyFunc R) req w
    (k : CtxKey) :
  k ≠ LogBypassedKey →
  k ≠ ReqLogIDKey →
  context_Value (Req_ctx (RequestModifier svc next req w).1) k
  = context_Value (Req_ctx (next req w).1) k.
Proof.
  intros Hk1 Hk2.
  destruct (next req w) as [req1 w1] eqn:Hnext. cbn [fst snd].
  destruct (captured_cases req1) as [(clone & body & Hcap)|(rd & e & Hb & He)].
  - rewrite (RequestModifier_captured _ _ _ _ _ _ _ _ Hnext Hcap).
    rewrite <- (captured_ctx _ _ _ Hcap).
    destruct (log_request_outcome svc clone clone body w1)
      as (ctx' & w' & -> & [(-> & _)|[(-> & _)|(-> & _)]]); cbn [fst Req_ctx Request_WithContext context_Value].
    all: by rewrite ?decide_False.
  - by rewrite (RequestModifier_read_error _ _ _ _ _ _ _ _ Hnext Hb He).
Qed.
End LoggerFrame.

Section ResponseSide.
Context {R : Type} `{!Repository R} `{!Gzip}.

Implicit Types (svc : service) (w : World R) (req : Request) (res : Response).

(** X5. For a response that is to be logged (inner chain succeeded, no bypass
    flag, a log id on the context) and whose body is read without error, the
    response modifier puts the bytes back on the response, starts exactly one
    task that carries the id and a copy of the response with the same bytes,
    and returns success without calling the repository or the logger itself:
    the response log is stored out of band. *)
Theorem ResponseModifier_starts_one_task svc (next : ResponseModifyFunc R) res w
    res1 w1 reqLogID :
  next res w = (res1, None, w1) →
  assert_bool (context_Value (Req_ctx (Res_Request res1)) LogBypassedKey) = false →
  assert_ULID (context_Value (Req_ctx (Res_Request res1)) ReqLogIDKey) = Some reqLogID →
  failure (Res_Body res1) = None →
  ∃ res' w',
    ResponseModifier svc next res w = (res', None, w')
    ∧ res' = Response_set_Body res1 (bytes_NewBuffer (content (Res_Body res1)))
    ∧ spawned w' = TaskStoreResponse reqLogID res' :: spawned w1
    ∧ calls w' = calls w1 ∧ repo w' = repo w1 ∧ logged w' = logged w1.
Proof.
  intros Hnext Hb Hid Hok. unfold ResponseModifier, bind. rewrite Hnext.
  cbn zeta. rewrite Hb, Hid. unfold ioutil_ReadAll. rewrite Hok.
  do 2 eexists. split; [reflexivity|]. done.
Qed.

(** X6. When the body of a response that is to be logged cannot be read, the
    response modifier starts no task and returns the read error wrapped with
    [%w]; the proxy's error handler then answers 502, unless the read failed
    because the request was cancelled, in which case it writes nothing. *)
Theorem ResponseModifier_read_failure svc (next : ResponseModifyFunc R) res w
    res1 w1 reqLogID e :
  next res w = (res1, None, w1) →
  assert_bool (context_Value (Req_ctx (Res_Request res1)) LogBypassedKey) = false →
  assert_ULID (context_Value (Req_ctx (Res_Request res1)) ReqLogIDKey) = Some reqLogID →
  failure (Res_Body res1) = Some e →
  ∃ res' err,
    ResponseModifier svc next res w = (res', Some err, w1)
    ∧ err = fmt_Errorf_w "reqlog: could not read response body" e
    ∧ (errorHandler err w1).1
      = (if errors_Is_Canceled e then WroteNothing else WroteStatus StatusBadGateway).
Proof.
  intros Hnext Hb Hid Hfail. unfold ResponseModifier, bind. rewrite Hnext.
  cbn zeta. rewrite Hb, Hid. unfold ioutil_ReadAll. rewrite Hfail.
  do 2 eexists. split; [reflexivity|]. split; [reflexivity|].
  unfold errorHandler. cbn [errors_Is_Canceled].
  by destruct (errors_Is_Canceled e).
Qed.

(** X7. [ParseHTTPResponse] succeeds exactly on the bodies it can read: a log
    it returns has the response's protocol, status code, status and header
    map, and its body is what the gzip reader delivered to the end (for a
    response marked gzip) or what the body delivered to the end (for any
    other response). *)
Theorem ParseHTTPResponse_success res (resLog : ResponseLog) :
  ParseHTTPResponse res = inr resLog →
  resLog = ResponseLog_of res (RL_Body resLog)
  ∧ if decide (Header_Get (Res_Header res) "Content-Encoding" = "gzip")
    then ∃ gzipReader, gzip_NewReader (Res_Body res) = inr gzipReader
                       ∧ failure gzipReader = None
                       ∧ RL_Body resLog = content gzipReader
    else failure (Res_Body res) = None ∧ RL_Body resLog = content (Res_Body res).
Proof.
  unfold ParseHTTPResponse, ioutil_ReadAll. destruct (decide _) as [Hgz|Hgz].
  - destruct (gzip_NewReader (Res_Body res)) as [e|rd]; [discriminate|].
    destruct (failure rd) eqn:Hf; [discriminate|]. cbn.
    intros [= <-]. split; [reflexivity|]. eauto.
  - destruct (failure (Res_Body res)) eqn:Hf; [discriminate|].
    intros [= <-]. done.
Qed.

(** X8. A response marked gzip whose body the gzip reader rejects, or stops
    decoding half way, gives no log: [ParseHTTPResponse] returns the cause
    wrapped with [%w], and the task logs the failure without calling the
    repository. *)
Theorem undecodable_gzip_is_not_stored (reqLogID : ULID) res w :
  Header_Get (Res_Header res) "Content-Encoding" = "gzip" →
  (∀ e, gzip_NewReader (Res_Body res) = inl e →
        ParseHTTPResponse res
        = inl (fmt_Errorf_w "reqlog: could not create gzip reader" e))
  ∧ (∀ gzipReader e,
        gzip_NewReader (Res_Body res) = inr gzipReader →
        failure gzipReader = Some e →
        ParseHTTPResponse res
        = inl (fmt_Errorf_w "reqlog: could not read gzipped response body" e))
  ∧ (∀ err, ParseHTTPResponse res = inl err →
        run_task (TaskStoreResponse reqLogID res) w
        = (tt, (log (Errorw "Failed to store response log." err) w).2)
        ∧ calls (run_task (TaskStoreResponse reqLogID res) w).2 = calls w
        ∧ repo (run_task (TaskStoreResponse reqLogID res) w).2 = repo w).
Proof.
  intros Hgz. split; [|split].
  - intros e He. unfold ParseHTTPResponse. rewrite decide_True by done.
    by rewrite He.
  - intros rd e Hrd He. unfold ParseHTTPResponse. rewrite decide_True by done.
    rewrite Hrd. unfold ioutil_ReadAll. by rewrite He.
  - intros err Herr. unfold run_task, storeResponse, bind. rewrite Herr. done.
Qed.

(** X9. For a response that is not marked gzip, what is stored is what is
    forwarded: the task started by the response modifier passes to
    [StoreResponseLog] a log whose body is the body left on the response for
    the client, under the id found on the request context, and logs the
    outcome of the store. *)
Theorem plain_response_stored_as_forwarded svc (next : ResponseModifyFunc R) res w
    res1 w1 reqLogID :
  next res w = (res1, None, w1) →
  assert_bool (context_Value (Req_ctx (Res_Request res1)) LogBypassedKey) = false →
  assert_ULID (context_Value (Req_ctx (Res_Request res1)) ReqLogIDKey) = Some reqLogID →
  failure (Res_Body res1) = None →
  Header_Get (Res_Header res1) "Content-Encoding" ≠ "gzip" →
  ∃ res' task w',
    ResponseModifier svc next res w = (res', None, w')
    ∧ spawned w' = task :: spawned w1
    ∧ ∀ w2, ∃ resLog,
        calls (run_task task w2).2 = CallStoreResponseLog reqLogID resLog :: calls w2
        ∧ RL_Body resLog = content (Res_Body res')
        ∧ RL_Body resLog = content (Res_Body res1)
        ∧ RL_Header resLog = Res_Header res'
        ∧ RL_StatusCode resLog = StatusCode res'
        ∧ repo (run_task task w2).2 = (StoreResponseLog (repo w2) reqLogID resLog).1
        ∧ logged (run_task task w2).2
          = match (StoreResponseLog (repo w2) reqLogID resLog).2 with
            | Some e => Errorw "Failed to store response log." e
            | None => Debugw "Stored response log."
            end :: logged w2.
Proof.
  intros Hnext Hb Hid Hok Hgz. unfold ResponseModifier, bind. rewrite Hnext.
  cbn zeta. rewrite Hb, Hid. unfold ioutil_ReadAll. rewrite Hok.
  do 3 eexists. split; [reflexivity|]. split; [reflexivity|].
  intros w2. unfold run_task, storeResponse, bind, ParseHTTPResponse.
  cbn [Res_Header Response_set_Body]. rewrite decide_False by done.
  cbn. unfold svc_StoreResponseLog.
  eexists (ResponseLog_of _ _).
  destruct (StoreResponseLog _ _ _) as [r' [e|]] eqn:Hst; cbn; rewrite Hst; done.
Qed.

(** X10. The error handler writes nothing and logs nothing exactly when the
    error is a cancellation, however many times it was wrapped with [%w];
    for every other error it logs one line and answers 502. *)
Theorem errorHandler_suppresses_cancellation (err : error) w :
  (∀ prefixes, errors_Is_Canceled (foldr fmt_Errorf_w context_Canceled prefixes) = true)
  ∧ (errors_Is_Canceled err = true → errorHandler err w = (WroteNothing, w))
  ∧ (errors_Is_Canceled err = false →
     errorHandler err w
     = (WroteStatus StatusBadGateway,
        (log (Errorw "Failed to proxy request." err) w).2))
  ∧ ((errorHandler err w).1 = WroteNothing ↔ errors_Is_Canceled err = true).
Proof.
  split; [|split; [|split]].
  - induction prefixes as [|p ps IH]; [reflexivity|exact IH].
  - intros Hc. unfold errorHandler. by rewrite Hc.
  - intros Hc. unfold errorHandler. by rewrite Hc.
  - unfold errorHandler. destruct (errors_Is_Canceled err); cbn; naive_solver.
Qed.
End ResponseSide.

(** * Further properties of the proxy engine *)

Section EngineFrame.
Context {R : Type} `{!Repository R}.

Lemma chain_app {F : Type} (ms ns : list (F → F)) (leaf : F) :
  chain (ms ++ ns) leaf = chain ms (chain ns leaf).
Proof. unfold chain. by rewrite foldr_app. Qed.

Lemma modifyRequest_chain_all (r : Request) :
  ∃ r', (∀ p : Proxy R, modifyRequest p r = chain (reqModifiers p) nopReqModifier r')
        ∧ Req_Body r' = Req_Body r ∧ Req_ctx r' = Req_ctx r
        ∧ Method r' = Method r ∧ Req_Proto r' = Req_Proto r.
Proof.
  eexists. split.
  { intros p. unfold modifyRequest.
    rewrite (wrap_down_chain (reqModifiers p)). reflexivity. }
  case_decide; done.
Qed.

(** X11. Whatever [X-Forwarded-For] the client sent, the middleware chain
    receives the request with that header present and empty (so that the
    reverse proxy does not add it); every other header, the method, the
    protocol, the body, the host and the context are as they came. *)
Theorem modifyRequest_clears_forwarded_for (r : Request) :
  ∃ r',
    (∀ p : Proxy R, modifyRequest p r = chain (reqModifiers p) nopReqModifier r')
    ∧ Req_Header r' !! "X-Forwarded-For" = Some []
    ∧ Header_Get (Req_Header r') "X-Forwarded-For" = ""
    ∧ (∀ k, k ≠ "X-Forwarded-For" → Req_Header r' !! k = Req_Header r !! k)
    ∧ Method r' = Method r ∧ Req_Proto r' = Req_Proto r
    ∧ Req_Body r' = Req_Body r ∧ Host r' = Host r ∧ Req_ctx r' = Req_ctx r.
Proof.
  eexists. split.
  { intros p. unfold modifyRequest.
    rewrite (wrap_down_chain (reqModifiers p)). reflexivity. }
  cbn [Req_Header Request_set_Header]. split; [apply lookup_insert_eq|].
  split; [unfold Header_Get; by rewrite lookup_insert_eq|].
  split.
  { intros k Hk. rewrite lookup_insert_ne by done. by case_decide. }
  case_decide; done.
Qed.


(** X13. Registering middlewares in several calls is registering their
    concatenation, registering request and response middlewares are
    independent of each other, and middlewares registered later run inside
    the ones registered before: the pipeline of the earlier ones has the
    pipeline of the later ones as its [next]. *)
Theorem registration_composes (p : Proxy R)
    (fns fns' : list (RequestModifyMiddleware R))
    (gns gns' : list (ResponseModifyMiddleware R)) :
  UseRequestModifier (UseRequestModifier p fns) fns' = UseRequestModifier p (fns ++ fns')
  ∧ UseResponseModifier (UseResponseModifier p gns) gns'
    = UseResponseModifier p (gns ++ gns')
  ∧ UseRequestModifier (UseResponseModifier p gns) fns
    = UseResponseModifier (UseRequestModifier p fns) gns
  ∧ (∀ res, modifyResponse (UseResponseModifier p gns) res
            = chain (resModifiers p) (chain gns nopResModifier) res)
  ∧ (∀ r, ∃ r', modifyRequest (UseRequestModifier p fns) r
                = chain (reqModifiers p) (chain fns nopReqModifier) r'
                ∧ ∀ q : Proxy R, modifyRequest q r
                                 = chain (reqModifiers q) nopReqModifier r').
Proof.
  split; [|split; [|split; [|split]]].
  - unfold UseRequestModifier. cbn. by rewrite <- (assoc_L (++)).
  - unfold UseResponseModifier. cbn. by rewrite <- (assoc_L (++)).
  - reflexivity.
  - intros res. rewrite modifyResponse_chain. cbn [UseResponseModifier resModifiers].
    by rewrite (chain_app (resModifiers p) gns).
  - intros r. destruct (modifyRequest_chain_all r) as (r' & Hall & _).
    exists r'. split; [|exact Hall].
    rewrite Hall. cbn [UseRequestModifier reqModifiers].
    by rewrite (chain_app (reqModifiers p) fns).
Qed.
End EngineFrame.

(** * Whole exchanges through the proxy with the logger attached *)

Section Exchanges.
Context {R : Type} `{!Repository R} `{!Gzip}.

Implicit Types (svc : service) (w : World R) (r : Request).

Lemma readable_captured r :
  readable r → ∃ clone body, captured r = Some (clone, body).
Proof.
  unfold readable. intros Hr.
  destruct (captured_cases r) as [Hc|(rd & e & Hb & He)]; [done|].
  rewrite Hb in Hr. congruence.
Qed.

Lemma logger_request_chain svc r :
  ∃ r', modifyRequest (Fixtures.proxy_with_logger svc) r
        = RequestModifier svc nopReqModifier r'
        ∧ Req_Body r' = Req_Body r ∧ Req_ctx r' = Req_ctx r
        ∧ Method r' = Method r ∧ Req_Proto r' = Req_Proto r.
Proof.
  destruct (modifyRequest_chain_all (R:=R) r) as (r' & Hall & Hrest).
  exists r'. split; [|exact Hrest]. by rewrite Hall.
Qed.

Lemma logger_response_chain svc res :
  modifyResponse (Fixtures.proxy_with_logger svc) res
  = ResponseModifier svc nopResModifier res.
Proof. by rewrite modifyResponse_chain. Qed.

(** X14. While no project is active, the request chain of the proxy with the
    logger attached calls the repository not at all and starts no task, and
    the response chain hands on any response to that request exactly as it
    received it, with no error and without touching the world: status,
    headers and body are those given to the response chain. *)
Theorem idle_exchange_is_untouched svc r w :
  activeProjectID svc = ulid_zero →
  readable r →
  ∃ outreq w1,
    modifyRequest (Fixtures.proxy_with_logger svc) r w = (outreq, w1)
    ∧ calls w1 = calls w ∧ repo w1 = repo w ∧ spawned w1 = spawned w
    ∧ Method outreq = Method r
    ∧ ∀ res (w2 : World R),
        Req_ctx (Res_Request res) = Req_ctx outreq →
        modifyResponse (Fixtures.proxy_with_logger svc) res w2 = (res, None, w2).
Proof.
  intros Hz Hr.
  destruct (logger_request_chain svc r) as (r' & -> & Hb & Hc & Hm & _).
  assert (readable r') as Hr' by (unfold readable; by rewrite Hb).
  destruct (readable_captured r' Hr') as (clone & body & Hcap).
  rewrite (RequestModifier_captured svc nopReqModifier r' w r' w clone body
             eq_refl Hcap).
  unfold log_request. rewrite decide_True by (by rewrite Hz).
  unfold bind, log, ret.
  do 2 eexists. split; [reflexivity|]. do 3 (split; [reflexivity|]).
  split.
  - cbn. destruct (captured_fields _ _ _ Hcap) as (-> & _). exact Hm.
  - intros res w2 Hctx. rewrite logger_response_chain.
    unfold ResponseModifier, bind, nopResModifier, ret. cbn zeta.
    rewrite Hctx. cbn. reflexivity.
Qed.

End Exchanges.

(** * The CONNECT tunnel *)

Section Connect.
Context {R : Type} `{!Repository R}.

Ltac tunnel_cases t :=
  destruct t as [[|] [?e|] [?e|] [?e|]];
  unfold handleConnect, clientTLSConn;
  cbn [is_Hijacker Hijack_err Handshake_err Serve_err negb app];
  try match goal with
      | |- context [errors_Is ?e ErrAlreadyAccepted] =>
          destruct (errors_Is e ErrAlreadyAccepted) eqn:?
      end;
  cbn [negb app].

Ltac events :=
  rewrite ?elem_of_cons, ?elem_of_nil;
  intuition (try congruence; try discriminate).

(** X17. The tunnel handler writes [200 OK] first whenever the response
    writer can be hijacked, and the only other status it ever writes is 503,
    which it writes exactly when the writer cannot be hijacked or the hijack
    fails; a hijack that fails is answered after the 200 was already
    written. *)
Theorem connect_status_codes (t : Tunnel) :
  (is_Hijacker t = true → head (handleConnect t) = Some (EvWriteHeader StatusOK))
  ∧ (EvWriteError StatusServiceUnavailable ∈ handleConnect t
     ↔ is_Hijacker t = false ∨ Hijack_err t ≠ None)
  ∧ (∀ code, EvWriteHeader code ∈ handleConnect t → code = StatusOK)
  ∧ (∀ code, EvWriteError code ∈ handleConnect t → code = StatusServiceUnavailable)
  ∧ (is_Hijacker t = true → ∀ err, Hijack_err t = Some err →
     handleConnect t
     = [EvWriteHeader StatusOK; EvHijack;
        EvErrorw "Hijacking client connection failed." (Some err);
        EvWriteError StatusServiceUnavailable]).
Proof.
  split; [|split; [|split; [|split]]].
  - intros Hh. tunnel_cases t; cbn in Hh; done.
  - tunnel_cases t; events.
  - intros code. tunnel_cases t; events.
  - intros code. tunnel_cases t; events.
  - intros Hh err He. tunnel_cases t; cbn in Hh, He; congruence.
Qed.

End Connect.

Section TypedContext.
Context {R : Type} `{!Repository R}.

(** X19. The response modifier reads the context through type assertions: a
    LOG_BYPASSED value other than the bool [true] does not bypass, and a
    value under [ReqLogIDKey] that is not a ULID counts as missing.  A
    response whose request context has neither makes the modifier return
    "reqlog: request is missing ID", with the response and the world as the
    inner chain left them. *)
Theorem ResponseModifier_requires_typed_values (svc : service)
    (next : ResponseModifyFunc R) (res : Response) (w : World R) res1 w1 :
  next res w = (res1, None, w1) →
  context_Value (Req_ctx (Res_Request res1)) LogBypassedKey ≠ Some (any_bool true) →
  (∀ id, context_Value (Req_ctx (Res_Request res1)) ReqLogIDKey ≠ Some (any_ULID id)) →
  ResponseModifier svc next res w
  = (res1, Some (errors_New "reqlog: request is missing ID"), w1).
Proof.
  intros Hnext Hb Hid. unfold ResponseModifier, bind. rewrite Hnext. cbn zeta.
  destruct (context_Value _ LogBypassedKey) as [[[|]| |]|]; cbn [assert_bool];
    try done.
  all: destruct (context_Value _ ReqLogIDKey) as [[| u |]|]; cbn [assert_ULID];
    try done.
  all: by destruct (Hid u).
Qed.
End TypedContext.

(** * The further properties on concrete exchanges *)

Module MoreRuns.
Import Fixtures.

Lemma RequestModifier_keeps_request_witness :
  ∃ req' w',
    RequestModifier svc_active nopReqModifier req_post mem0 = (req', w')
    ∧ Req_Header req' = Req_Header req_post
    ∧ Req_Body req' = Some (bytes_NewBuffer (String.list_byte_of_string "hello")).
Proof.
  destruct (RequestModifier_keeps_request svc_active nopReqModifier req_post mem0
              req_post mem0 _ _ eq_refl eq_refl)
    as (req' & w' & Hrun & _ & _ & _ & Hh & _ & Hb & _).
  exists req', w'. split; [exact Hrun|]. split; [exact Hh|exact Hb].
Defined.

Lemma RequestModifier_stores_request_witness :
  ∃ w',
    RequestModifier svc_active nopReqModifier req_get mem0
    = (logged_as (ulid_MustNew 1700000000000 7) req_get, w')
    ∧ calls w' = [CallStoreRequestLog (built_log svc_active req_get [] mem0)]
    ∧ repo w' = [built_log svc_active req_get [] mem0].
Proof.
  destruct (RequestModifier_stores_request svc_active nopReqModifier req_get mem0
              req_get mem0 req_get [] [built_log svc_active req_get [] mem0]
              eq_refl eq_refl)
    as (w' & Hrun & Hcalls & Hrepo & _).
  - discriminate.
  - reflexivity.
  - reflexivity.
  - exists w'. split; [exact Hrun|]. split; [exact Hcalls|exact Hrepo].
Defined.

Lemma RequestModifier_keeps_foreign_keys_witness :
  context_Value
    (Req_ctx (RequestModifier svc_active nopReqModifier req_post mem0).1)
    (foreign_key "trace")
  = Some (any_string "abc").
Proof.
  rewrite (RequestModifier_keeps_foreign_keys svc_active nopReqModifier req_post
             mem0 (foreign_key "trace")).
  - reflexivity.
  - discriminate.
  - discriminate.
Defined.

Lemma ResponseModifier_starts_one_task_witness :
  ∃ res' w',
    ResponseModifier svc_active nopResModifier (res_hello (logged_as 5%N req_get)) mem0
    = (res', None, w')
    ∧ spawned w' = [TaskStoreResponse 5%N res']
    ∧ calls w' = [].
Proof.
  destruct (ResponseModifier_starts_one_task svc_active nopResModifier
              (res_hello (logged_as 5%N req_get)) mem0
              (res_hello (logged_as 5%N req_get)) mem0 5%N
              eq_refl eq_refl eq_refl eq_refl)
    as (res' & w' & Hrun & _ & Hsp & Hcalls & _).
  exists res', w'. split; [exact Hrun|]. split; [exact Hsp|exact Hcalls].
Defined.

Lemma ResponseModifier_read_failure_witness :
  ∃ res' err,
    ResponseModifier svc_active nopResModifier
      (res_cancelled (logged_as 5%N req_get)) mem0
    = (res', Some err, mem0)
    ∧ (errorHandler err mem0).1 = WroteNothing.
Proof.
  destruct (ResponseModifier_read_failure svc_active nopResModifier
              (res_cancelled (logged_as 5%N req_get)) mem0
              (res_cancelled (logged_as 5%N req_get)) mem0 5%N context_Canceled
              eq_refl eq_refl eq_refl eq_refl)
    as (res' & err & Hrun & _ & Hh).
  exists res', err. split; [exact Hrun|exact Hh].
Defined.

Lemma ParseHTTPResponse_success_witness :
  ∃ gzipReader,
    gzip_NewReader (Res_Body (res_gz req_get)) = inr gzipReader
    ∧ failure gzipReader = None
    ∧ content gzipReader = String.list_byte_of_string "world".
Proof.
  destruct (ParseHTTPResponse_success (res_gz req_get)
              (ResponseLog_of (res_gz req_get) (String.list_byte_of_string "world")))
    as (_ & Hbody).
  - vm_compute. reflexivity.
  - rewrite decide_True in Hbody by reflexivity.
    destruct Hbody as (gzipReader & Hrd & Hok & Hc).
    exists gzipReader. split; [exact Hrd|]. split; [exact Hok|]. by rewrite <- Hc.
Defined.

Lemma undecodable_gzip_is_not_stored_witness :
  ParseHTTPResponse (res_not_gz req_get)
  = inl (fmt_Errorf_w "reqlog: could not create gzip reader" StoredGzip.ErrHeader)
  ∧ calls (run_task (TaskStoreResponse 5%N (res_not_gz req_get)) mem0).2 = [].
Proof.
  destruct (undecodable_gzip_is_not_stored 5%N (res_not_gz req_get) mem0 eq_refl)
    as (Hhdr & _ & Hrun).
  assert (ParseHTTPResponse (res_not_gz req_get)
          = inl (fmt_Errorf_w "reqlog: could not create gzip reader"
                   StoredGzip.ErrHeader)) as Hparse.
  { apply Hhdr. vm_compute. reflexivity. }
  split; [exact Hparse|]. exact (proj1 (proj2 (Hrun _ Hparse))).
Defined.

Lemma plain_response_stored_as_forwarded_witness :
  ∃ res' task w',
    ResponseModifier svc_active nopResModifier (res_hello (logged_as 5%N req_get)) mem0
    = (res', None, w')
    ∧ spawned w' = [task]
    ∧ ∃ resLog,
        calls (run_task task w').2 = [CallStoreResponseLog 5%N resLog]
        ∧ RL_Body resLog = content (Res_Body res')
        ∧ RL_Body resLog = String.list_byte_of_string "hello".
Proof.
  destruct (plain_response_stored_as_forwarded svc_active nopResModifier
              (res_hello (logged_as 5%N req_get)) mem0
              (res_hello (logged_as 5%N req_get)) mem0 5%N
              eq_refl eq_refl eq_refl eq_refl)
    as (res' & task & w' & Hrun & Hsp & Hstore).
  - discriminate.
  - exists res', task, w'. split; [exact Hrun|]. split; [exact Hsp|].
    destruct (Hstore w') as (resLog & Hcalls & Hb1 & Hb2 & _).
    exists resLog. split; [|split; [exact Hb1|exact Hb2]].
    rewrite Hcalls. f_equal.
    injection Hrun as _ <-. reflexivity.
Defined.

Lemma errorHandler_suppresses_cancellation_witness :
  errorHandler (fmt_Errorf_w "reqlog: could not read response body" context_Canceled)
    mem0 = (WroteNothing, mem0)
  ∧ (errorHandler (errors_New "dial tcp: connection refused") mem0).1
    = WroteStatus StatusBadGateway.
Proof.
  split.
  - apply (proj1 (proj2 (errorHandler_suppresses_cancellation
                           (fmt_Errorf_w "reqlog: could not read response body"
                              context_Canceled) mem0))).
    reflexivity.
  - rewrite (proj1 (proj2 (proj2 (errorHandler_suppresses_cancellation
                                    (errors_New "dial tcp: connection refused") mem0)))).
    + reflexivity.
    + reflexivity.
Defined.

Lemma modifyRequest_clears_forwarded_for_witness :
  ∃ r',
    modifyRequest NewProxy req_post mem0 = (r', mem0)
    ∧ Req_Header r' !! "X-Forwarded-For" = Some []
    ∧ Req_Header r' !! "Accept" = Some ["*/*"].
Proof.
  destruct (modifyRequest_clears_forwarded_for (R:=MemRepo) req_post)
    as (r' & Hchain & Hxff & _ & Hother & _).
  exists r'. split; [by rewrite (Hchain NewProxy)|]. split; [exact Hxff|].
  rewrite (Hother "Accept"); [reflexivity|discriminate].
Defined.

Lemma idle_exchange_is_untouched_witness :
  ∃ outreq w1,
    modifyRequest (proxy_with_logger svc_idle) req_post mem0 = (outreq, w1)
    ∧ calls w1 = [] ∧ spawned w1 = []
    ∧ modifyResponse (proxy_with_logger svc_idle) (res_gz outreq) w1
      = (res_gz outreq, None, w1).
Proof.
  destruct (idle_exchange_is_untouched svc_idle req_post mem0 eq_refl eq_refl)
    as (outreq & w1 & Hrun & Hcalls & _ & Hsp & _ & Hres).
  exists outreq, w1. split; [exact Hrun|]. split; [exact Hcalls|].
  split; [exact Hsp|]. apply Hres. reflexivity.
Defined.


Lemma connect_status_codes_witness :
  head (handleConnect tunnel_up) = Some (EvWriteHeader StatusOK)
  ∧ EvWriteError StatusServiceUnavailable ∈ handleConnect tunnel_hijack_fails
  ∧ head (handleConnect tunnel_hijack_fails) = Some (EvWriteHeader StatusOK).
Proof.
  split; [exact (proj1 (connect_status_codes tunnel_up) eq_refl)|].
  split.
  - apply (proj1 (proj2 (connect_status_codes tunnel_hijack_fails))).
    right. discriminate.
  - exact (proj1 (connect_status_codes tunnel_hijack_fails) eq_refl).
Defined.


Lemma ResponseModifier_requires_typed_values_witness :
  ResponseModifier svc_active nopResModifier (res_hello (mistyped req_get)) mem0
  = (res_hello (mistyped req_get),
     Some (errors_New "reqlog: request is missing ID"), mem0).
Proof.
  apply ResponseModifier_requires_typed_values.
  - reflexivity.
  - discriminate.
  - intros id. discriminate.
Defined.
End MoreRuns.
